(** * juju-metadata generate-tools: a shallow embedding of
      [plugins/juju-metadata/toolsmetadata.go]

    The command discovers the juju tools tarballs of an environment,
    optionally downloads each of them to compute its size and SHA-256,
    assembles one [ToolsMetadata] record per tarball, marshals the records
    into a simplestreams index and products document and writes both to the
    environment's storage.

    Layout of the development:
    - [Go]: the Go values the command manipulates (byte slices, [int64],
      slicing, the [%x] verb);
    - [SHA256]: FIPS 180-4 SHA-256, the function behind [crypto/sha256];
    - the data of the command and, in section [Command], the command
      itself ([fetchToolsHash], [localdirEnv], [Run]) over an interface
      [Externals] of what it calls outside of its file, as computations
      that pass the world along and log every interaction;
    - the vocabulary of the properties: what a log shows;
    - [Scenario]: a concrete set of collaborators, to run the command;
    - lemmas on logs, the command case by case, its parts (assembly,
      publishing), and the properties of whole runs. *)

From Stdlib Require Import ZArith List Bool Lia.
From Stdlib.Strings Require Import String Ascii Byte.
From Stdlib Require Import DecimalString.
Import ListNotations.

Local Open Scope string_scope.
Local Open Scope list_scope.
Local Open Scope Z_scope.

(* ===================================================================== *)
(** ** Go values *)
(* ===================================================================== *)

Module Go.

(** A Go [error] value that is not nil; [option error] is a Go [error]. *)
Definition error : Type := string.

(** A Go [[]byte]. *)
Definition bytes : Type := list byte.

(** Conversion to [int64]: two's complement wrap-around. *)
Definition int64 (z : Z) : Z := (z + 2 ^ 63) mod 2 ^ 64 - 2 ^ 63.

(** [len(b)] for a byte slice, as the Go [int] it is. *)
Definition blen (b : bytes) : Z := Z.of_nat (List.length b).

(** The slice expression [s[1:]] on a string.  Go checks the bound
    [1 <= len(s)] at run time and panics when it fails; [None] is that
    panic. *)
Definition slice_from_1 (s : string) : option string :=
  match s with
  | EmptyString => None
  | String _ rest => Some rest
  end.

(** One lower-case hexadecimal digit. *)
Definition hex_digit (n : N) : ascii :=
  match n with
  | 0%N => "0" | 1%N => "1" | 2%N => "2" | 3%N => "3"
  | 4%N => "4" | 5%N => "5" | 6%N => "6" | 7%N => "7"
  | 8%N => "8" | 9%N => "9" | 10%N => "a" | 11%N => "b"
  | 12%N => "c" | 13%N => "d" | 14%N => "e" | _ => "f"
  end%char.

(** [fmt.Sprintf("%x", b)] for a byte slice [b]: two lower-case
    hexadecimal digits per byte, most significant first. *)
Fixpoint Sprintf_x (b : bytes) : string :=
  match b with
  | [] => EmptyString
  | x :: rest =>
      let n := Byte.to_N x in
      String (hex_digit (N.div n 16))
        (String (hex_digit (N.modulo n 16)) (Sprintf_x rest))
  end.

(** [[]byte(s)]: the bytes of a string. *)
Definition bytes_of_string (s : string) : bytes :=
  List.map byte_of_ascii (list_ascii_of_string s).

End Go.

(* ===================================================================== *)
(** ** SHA-256 (FIPS 180-4), the digest of [crypto/sha256] *)
(* ===================================================================== *)

Module SHA256.

Definition w32 (z : Z) : Z := z mod 2 ^ 32.
Definition add32 (a b : Z) : Z := w32 (a + b).
Definition rotr (n x : Z) : Z :=
  Z.lor (Z.shiftr x n) (w32 (Z.shiftl x (32 - n))).
Definition shr (n x : Z) : Z := Z.shiftr x n.
Definition not32 (x : Z) : Z := Z.lxor x 0xffffffff.

Definition Ch (x y z : Z) : Z :=
  Z.lxor (Z.land x y) (Z.land (not32 x) z).
Definition Maj (x y z : Z) : Z :=
  Z.lxor (Z.lxor (Z.land x y) (Z.land x z)) (Z.land y z).
Definition bsig0 (x : Z) : Z :=
  Z.lxor (Z.lxor (rotr 2 x) (rotr 13 x)) (rotr 22 x).
Definition bsig1 (x : Z) : Z :=
  Z.lxor (Z.lxor (rotr 6 x) (rotr 11 x)) (rotr 25 x).
Definition ssig0 (x : Z) : Z :=
  Z.lxor (Z.lxor (rotr 7 x) (rotr 18 x)) (shr 3 x).
Definition ssig1 (x : Z) : Z :=
  Z.lxor (Z.lxor (rotr 17 x) (rotr 19 x)) (shr 10 x).

(** The primes below [n], by trial division. *)
Definition is_prime (p : Z) : bool :=
  (1 <? p) &&
  List.forallb (fun d => negb (p mod d =? 0))
               (List.map Z.of_nat (List.seq 2 (Z.to_nat p - 2))).

Definition primes_below (n : nat) : list Z :=
  List.filter is_prime (List.map Z.of_nat (List.seq 0 n)).

(** The integer cube root, one bit at a time from bit [bits - 1] down. *)
Fixpoint cube_root (bits : nat) (r n : Z) : Z :=
  match bits with
  | O => r
  | S i =>
      let r' := r + 2 ^ Z.of_nat i in
      cube_root i (if r' * r' * r' <=? n then r' else r) n
  end.

(** The round constants: the first 32 bits of the fractional parts of the
    cube roots of the first 64 primes. *)
Definition K : list Z :=
  Eval vm_compute in
    List.map (fun p => w32 (cube_root 36 0 (p * 2 ^ 96))) (primes_below 312).

(** The initial hash value: the first 32 bits of the fractional parts of
    the square roots of the first 8 primes. *)
Definition H0 : list Z :=
  Eval vm_compute in
    List.map (fun p => w32 (Z.sqrt (p * 2 ^ 64))) (primes_below 20).

(** Big-endian packing of bytes into 32-bit words and back. *)
Fixpoint words_of_bytes (b : list Z) : list Z :=
  match b with
  | b0 :: b1 :: b2 :: b3 :: rest =>
      (((b0 * 256 + b1) * 256 + b2) * 256 + b3) :: words_of_bytes rest
  | _ => []
  end.

Definition bytes_of_word (w : Z) : list Z :=
  [ Z.shiftr w 24 mod 256; Z.shiftr w 16 mod 256;
    Z.shiftr w 8 mod 256; w mod 256 ].

(** Padding: a 1 bit, zeros up to 56 modulo 64 bytes, then the message
    length in bits as a 64-bit big-endian integer. *)
Definition pad (msg : list Z) : list Z :=
  let l := Z.of_nat (List.length msg) in
  let zeros := Z.to_nat ((55 - l) mod 64) in
  let bits := (l * 8) mod 2 ^ 64 in
  msg ++ [0x80] ++ List.repeat 0 zeros
      ++ bytes_of_word (Z.shiftr bits 32) ++ bytes_of_word (w32 bits).

(** The message schedule, most recent word first: from
    [W(t-1) :: ... :: W(0)] to [W(t+n-1) :: ... :: W(0)]. *)
Fixpoint schedule (n : nat) (ws : list Z) : list Z :=
  match n with
  | O => ws
  | S n' =>
      let w := add32 (add32 (ssig1 (nth 1 ws 0)) (nth 6 ws 0))
                     (add32 (ssig0 (nth 14 ws 0)) (nth 15 ws 0)) in
      schedule n' (w :: ws)
  end.

Record regs : Type := mkRegs
  { ra : Z; rb : Z; rc : Z; rd : Z; re : Z; rf : Z; rg : Z; rh : Z }.

Definition round (s : regs) (kw : Z * Z) : regs :=
  let (k, w) := kw in
  let t1 := add32 (add32 (add32 (rh s) (bsig1 (re s)))
                         (add32 (Ch (re s) (rf s) (rg s)) k)) w in
  let t2 := add32 (bsig0 (ra s)) (Maj (ra s) (rb s) (rc s)) in
  mkRegs (add32 t1 t2) (ra s) (rb s) (rc s)
         (add32 (rd s) t1) (re s) (rf s) (rg s).

Definition regs_of (h : list Z) : regs :=
  mkRegs (nth 0 h 0) (nth 1 h 0) (nth 2 h 0) (nth 3 h 0)
         (nth 4 h 0) (nth 5 h 0) (nth 6 h 0) (nth 7 h 0).

(** Compression of one 16-word block into the chaining value. *)
Definition compress (h : list Z) (block : list Z) : list Z :=
  let ws := List.rev (schedule 48 (List.rev block)) in
  let s0 := regs_of h in
  let s := List.fold_left round (List.combine K ws) s0 in
  [ add32 (ra s0) (ra s); add32 (rb s0) (rb s);
    add32 (rc s0) (rc s); add32 (rd s0) (rd s);
    add32 (re s0) (re s); add32 (rf s0) (rf s);
    add32 (rg s0) (rg s); add32 (rh s0) (rh s) ].

(** All 16-word blocks of a padded message, in order. *)
Fixpoint blocks (fuel : nat) (ws : list Z) : list (list Z) :=
  match fuel, ws with
  | S fuel', _ :: _ => List.firstn 16 ws :: blocks fuel' (List.skipn 16 ws)
  | _, _ => []
  end.

(** The 32-byte digest of a message. *)
Definition Sum256 (msg : Go.bytes) : Go.bytes :=
  let ws := words_of_bytes (pad (List.map (fun b => Z.of_N (Byte.to_N b)) msg)) in
  let h := List.fold_left compress (blocks (List.length ws) ws) H0 in
  List.map (fun z => match Byte.of_N (Z.to_N z) with
                     | Some b => b
                     | None => x00
                     end)
           (List.flat_map bytes_of_word h).

End SHA256.

(* ===================================================================== *)
(** ** The data of the command *)
(* ===================================================================== *)

Import Go.

(** [version.Number], [version.Binary] and [tools.Tools] of juju-core:
    what discovery returns for one tarball. *)
Record Number : Type := mkNumber
  { Number_Major : Z; Number_Minor : Z; Number_Patch : Z; Number_Build : Z }.

Record Binary : Type := mkBinary
  { Binary_Number : Number; Binary_Series : string; Binary_Arch : string }.

Record Tools : Type := mkTools
  { Tools_Version : Binary; Tools_URL : string }.

(** [url.URL]; the command reads its [Path]. *)
Record URL : Type := mkURL
  { URL_Scheme : string; URL_Host : string; URL_Path : string }.

(** [tools.ToolsMetadata]: one record of the products document. *)
Record ToolsMetadata : Type := mkToolsMetadata
  { ToolsMetadata_Release : string;
    ToolsMetadata_Version : string;
    ToolsMetadata_Arch : string;
    ToolsMetadata_Path : string;
    ToolsMetadata_FileType : string;
    ToolsMetadata_Size : Z;
    ToolsMetadata_SHA256 : string }.

(** An [io.Reader] that ends: the successive non-final results of [Read]
    (each a chunk of bytes with a nil error), then either [io.EOF]
    ([Reader_err = None]) or a read error. *)
Record Reader : Type := mkReader
  { Reader_chunks : list bytes; Reader_err : option error }.

(** [http.Response]: status code and body. *)
Record Response : Type := mkResponse
  { Response_StatusCode : Z; Response_Body : Reader }.

(** [net.Listener], known by the address it is bound to. *)
Record Listener : Type := mkListener { Listener_Addr : string }.

(** [hash.Hash] as [sha256.New()] makes it: the state is the bytes written
    so far; [Write] never fails and [Sum] appends the digest of what was
    written. *)
Record Hash : Type := mkHash { Hash_written : bytes }.

Definition sha256_New : Hash := mkHash [].

Definition Hash_Write (h : Hash) (p : bytes) : Hash * Z :=
  (mkHash (Hash_written h ++ p), blen p).

Definition Hash_Sum (h : Hash) (b : bytes) : bytes :=
  b ++ SHA256.Sum256 (Hash_written h).

(** [io.Copy(dst, src)] for a hash [dst]: every chunk read is written to
    [dst] and counted in the [int64] total; a read error ends the copy and
    is returned with the count so far, [io.EOF] ends it with a nil
    error. *)
Fixpoint io_Copy_loop (dst : Hash) (chunks : list bytes) (rerr : option error)
    (written : Z) : Z * Hash * option error :=
  match chunks with
  | [] => (written, dst, rerr)
  | buf :: rest =>
      if 0 <? blen buf then
        let (dst', nw) := Hash_Write dst buf in
        io_Copy_loop dst' rest rerr (int64 (written + nw))
      else io_Copy_loop dst rest rerr written
  end.

Definition io_Copy (dst : Hash) (src : Reader) : Z * Hash * option error :=
  io_Copy_loop dst (Reader_chunks src) (Reader_err src) 0.

(** How a Go function call ends: it returns a value, returns a non-nil
    error, or panics. *)
Inductive result (A : Type) : Type :=
| Ok (a : A)
| Err (e : error)
| Panic (msg : string).
Arguments Ok {A} a.
Arguments Err {A} e.
Arguments Panic {A} msg.

(** The interactions of a run with the world outside of it, each with
    what came back. *)
Inductive Event : Type :=
| EvNewFromName (name : string) (err : option error)
| EvServe (addr dir : string) (err : option error)
| EvListenerClose (addr : string)
| EvPrint (text : string)
| EvFindTools (major : Z) (res : error + list Tools)
| EvURLParse (rawurl : string) (res : error + URL)
| EvHttpGet (url : string) (res : error + Response)
| EvCopy (written : Z) (err : option error)
| EvBodyClose
| EvMarshal (metadata : list ToolsMetadata) (res : error + (bytes * bytes))
| EvStorageURL (name : string) (res : error + string)
| EvStoragePut (name : string) (data : bytes) (length : Z) (err : option error).

Definition err_of {A : Type} (r : error + A) : option error :=
  match r with inl e => Some e | inr _ => None end.

(** The error an interaction came back with, if any. *)
Definition event_error (ev : Event) : option error :=
  match ev with
  | EvNewFromName _ err | EvServe _ _ err | EvCopy _ err
  | EvStoragePut _ _ _ err => err
  | EvFindTools _ res => err_of res
  | EvURLParse _ res => err_of res
  | EvHttpGet _ res => err_of res
  | EvMarshal _ res => err_of res
  | EvStorageURL _ res => err_of res
  | EvListenerClose _ | EvPrint _ | EvBodyClose => None
  end.

(** [pathPrefix] is the prefix for metadata paths. *)
Definition pathPrefix : string := "tools/".

(** [ToolsMetadataCommand], with the [EnvName] of its embedded
    [cmd.EnvCommandBase]. *)
Record ToolsMetadataCommand : Type := mkCommand
  { EnvName : string; fetch : bool; metadataDir : string }.

(* ===================================================================== *)
(** ** The command *)
(* ===================================================================== *)

Section Command.

(** The state of everything outside of the process: the environment's
    storage, the network, the local file system.  Every call that leaves
    the process takes the world and gives it back. *)
Variable W : Type.

(** [environs.Storage]: the two methods [Run] calls. *)
Record Storage : Type := mkStorage
  { Storage_URL : string -> W -> (error + string) * W;
    Storage_Put : string -> bytes -> Z -> W -> option error * W }.

(** [environs.Environ]: an interface; [Run] calls its [Storage] method
    and hands the environment to [tools.FindTools]. *)
Record Environ : Type := mkEnviron
  { Environ_Name : string; Environ_Storage : Storage }.

(** [localdirEnv] wraps an [Environ], returning a localstorage [Storage]
    for its private storage. *)
Record localdirEnv : Type := mklocaldirEnv
  { localdirEnv_Environ : Environ; localdirEnv_storage : Storage }.

Definition localdirEnv_Storage (e : localdirEnv) : Storage :=
  localdirEnv_storage e.

(** A [localdirEnv] used as an [Environ]: the methods of the embedded
    [Environ] are promoted, [Storage] is the wrapper's own. *)
Definition localdirEnv_Environ_iface (e : localdirEnv) : Environ :=
  {| Environ_Name := Environ_Name (localdirEnv_Environ e);
     Environ_Storage := localdirEnv_Storage e |}.

(** What [Run] uses and this file does not define: juju-core's packages
    and the parts of Go's library that reach outside of the process or
    whose result depends on the platform. *)
Record Externals : Type := mkExternals
  { environs_NewFromName : string -> W -> (error + Environ) * W;
    utils_NormalizePath : string -> string;
    localstorage_Serve : string -> string -> W -> (error + Listener) * W;
    localstorage_Client : string -> Storage;
    Listener_Close : Listener -> W -> W;
    version_Current : Binary;
    Filter : Type;
    Filter_zero : Filter;
    tools_FindTools : Environ -> Z -> Filter -> W -> (error + list Tools) * W;
    Number_String : Number -> string;
    tools_MarshalToolsMetadataJSON :
      list ToolsMetadata -> W -> (error + (bytes * bytes)) * W;
    simplestreams_DefaultIndexPath : string;
    simplestreams_UnsignedSuffix : string;
    tools_ProductMetadataPath : string;
    url_Parse : string -> error + URL;
    http_Get : string -> W -> (error + Response) * W;
    filepath_Join : string -> string -> string }.

Variable X : Externals.

(** *** Computations: world passing, a log of interactions, three ways
    to end *)

Definition M (A : Type) : Type := W -> result A * W * list Event.

Definition ret {A : Type} (a : A) : M A := fun w => (Ok a, w, []).

(** [return err] with a non-nil [err]. *)
Definition throw {A : Type} (e : error) : M A := fun w => (Err e, w, []).

Definition panic {A : Type} (msg : string) : M A :=
  fun w => (Panic msg, w, []).

Definition bind {A B : Type} (m : M A) (k : A -> M B) : M B :=
  fun w =>
    match m w with
    | (Ok a, w1, t1) => let '(r, w2, t2) := k a w1 in (r, w2, t1 ++ t2)
    | (Err e, w1, t1) => (Err e, w1, t1)
    | (Panic msg, w1, t1) => (Panic msg, w1, t1)
    end.

(** A call that leaves the process: its Go return value, logged. *)
Definition call {A : Type} (f : W -> A * W) (ev : A -> Event) : M A :=
  fun w => let (a, w1) := f w in (Ok a, w1, [ev a]).

(** A pure library call, logged. *)
Definition eval {A : Type} (a : A) (ev : A -> Event) : M A :=
  fun w => (Ok a, w, [ev a]).

Definition log (ev : Event) : M unit := fun w => (Ok tt, w, [ev]).

(** [defer cleanup()] in front of [body]: the cleanup runs when the body
    ends, however it ends. *)
Definition defer {A : Type} (cleanup : M unit) (body : M A) : M A :=
  fun w =>
    let '(r, w1, t1) := body w in
    let '(_, w2, t2) := cleanup w1 in
    (r, w2, t1 ++ t2).

Notation "x <- m ;; k" := (bind m (fun x => k))
  (at level 61, m at next level, right associativity).
Notation "m ;; k" := (bind m (fun _ => k))
  (at level 61, right associativity).

(** [fmt.Fprintln(context.Stdout, ...)] and [fmt.Fprintf]; the command
    ignores what they return. *)
Definition Fprint (text : string) : M unit := log (EvPrint text).

(** *** [fetchToolsHash]

    fetches the file at the specified URL, and calculates its size in
    bytes and computes a SHA256 hash of its contents.  Its three results
    are returned as they are, the hash being [None] for Go's nil. *)
Definition fetchToolsHash (url : string) : M (Z * option Hash * option error) :=
  r <- call (http_Get X url) (EvHttpGet url) ;;
  match r with
  | inl err => ret (0, None, Some err)
  | inr resp =>
      let sha256hash := sha256_New in
      let '(size, sha256hash, err) := io_Copy sha256hash (Response_Body resp) in
      log (EvCopy size err) ;;
      log EvBodyClose ;;
      ret (size, Some sha256hash, err)
  end.

(** *** [Run], lines 77-107: the body of the loop over the tools found *)
Definition Run_record (c : ToolsMetadataCommand) (t : Tools) : M ToolsMetadata :=
  r <- eval (url_Parse X (Tools_URL t)) (EvURLParse (Tools_URL t)) ;;
  match r with
  | inl err => throw err
  | inr u =>
      match slice_from_1 (URL_Path u) with
      | None => panic "runtime error: slice bounds out of range"
      | Some urlPath =>
          sized <-
            (if fetch c then
               Fprint ("Fetching tools to generate hash: "
                         ++ Tools_URL t ++ String "010" EmptyString)%string ;;
               fetched <- fetchToolsHash (Tools_URL t) ;;
               let '(size, sha256hash, err) := fetched in
               match err with
               | Some e => throw e
               | None =>
                   match sha256hash with
                   | None =>
                       panic "runtime error: nil pointer dereference"
                   | Some h => ret (size, Sprintf_x (Hash_Sum h []))
                   end
               end
             else ret (0, EmptyString)) ;;
          let '(size, sha256hex) := sized in
          ret {| ToolsMetadata_Release := Binary_Series (Tools_Version t);
                 ToolsMetadata_Version :=
                   Number_String X (Binary_Number (Tools_Version t));
                 ToolsMetadata_Arch := Binary_Arch (Tools_Version t);
                 ToolsMetadata_Path := urlPath;
                 ToolsMetadata_FileType := "tar.gz";
                 ToolsMetadata_Size := size;
                 ToolsMetadata_SHA256 := sha256hex |}
      end
  end.

(** *** [Run], lines 76-107: the loop; [metadata[i]] is set for
    [i = 0, 1, ...] in turn, so the slice is built front to back. *)
Fixpoint Run_assemble (c : ToolsMetadataCommand) (toolsList : list Tools)
    : M (list ToolsMetadata) :=
  match toolsList with
  | [] => ret []
  | t :: rest =>
      m <- Run_record c t ;;
      ms <- Run_assemble c rest ;;
      ret (m :: ms)
  end.

(** *** [Run], lines 120-139: the loop over the objects to write.  [err]
    is the [err] variable of [Run], which line 133 tests and line 136
    assigns. *)
Fixpoint Run_publish (c : ToolsMetadataCommand) (env : Environ)
    (err : option error) (objects : list (string * bytes)) : M unit :=
  match objects with
  | [] => ret tt
  | (object_path, object_data) :: rest =>
      path <-
        (if negb (String.eqb (metadataDir c) EmptyString) then
           ret (filepath_Join X (metadataDir c) object_path)
         else
           r <- call (Storage_URL (Environ_Storage env) object_path)
                     (EvStorageURL object_path) ;;
           match r with
           | inl err => throw err
           | inr objectUrl => ret objectUrl
           end) ;;
      Fprint ("Writing " ++ path ++ String "010" EmptyString)%string ;;
      let buf := object_data in
      match err with
      | Some e => throw e
      | None =>
          err <- call (Storage_Put (Environ_Storage env) object_path buf
                                   (int64 (blen buf)))
                      (EvStoragePut object_path buf (int64 (blen buf))) ;;
          match err with
          | Some e => throw e
          | None => Run_publish c env err rest
          end
      end
  end.

(** The two objects of line 113-119. *)
Definition objects (index products : bytes) : list (string * bytes) :=
  [ ((pathPrefix ++ simplestreams_DefaultIndexPath X
                 ++ simplestreams_UnsignedSuffix X)%string, index);
    ((pathPrefix ++ tools_ProductMetadataPath X)%string, products) ].

(** *** [Run], lines 70-140: what happens once [env] is known *)
Definition Run_main (c : ToolsMetadataCommand) (env : Environ) : M unit :=
  Fprint ("Finding tools..." ++ String "010" EmptyString)%string ;;
  let major := Number_Major (Binary_Number (version_Current X)) in
  r <- call (tools_FindTools X env major (Filter_zero X)) (EvFindTools major) ;;
  match r with
  | inl err => throw err
  | inr toolsList =>
      metadata <- Run_assemble c toolsList ;;
      r <- call (tools_MarshalToolsMetadataJSON X metadata) (EvMarshal metadata) ;;
      match r with
      | inl err => throw err
      | inr (index, products) =>
          Run_publish c env None (objects index products)
      end
  end.

(** *** [Run] *)
Definition Run (c : ToolsMetadataCommand) : M unit :=
  r <- call (environs_NewFromName X (EnvName c))
            (fun r => EvNewFromName (EnvName c) (err_of r)) ;;
  match r with
  | inl err => throw err
  | inr env =>
      if negb (String.eqb (metadataDir c) EmptyString) then
        let c := mkCommand (EnvName c) (fetch c)
                           (utils_NormalizePath X (metadataDir c)) in
        r <- call (localstorage_Serve X "127.0.0.1:0" (metadataDir c))
                  (fun r => EvServe "127.0.0.1:0" (metadataDir c) (err_of r)) ;;
        match r with
        | inl err => throw err
        | inr listener =>
            defer (call (fun w => (tt, Listener_Close X listener w))
                        (fun _ => EvListenerClose (Listener_Addr listener)))
              (let storageAddr := Listener_Addr listener in
               let env := localdirEnv_Environ_iface
                            (mklocaldirEnv env (localstorage_Client X storageAddr)) in
               Run_main c env)
        end
      else Run_main c env
  end.

End Command.

Arguments environs_NewFromName {W} e.
Arguments utils_NormalizePath {W} e.
Arguments localstorage_Serve {W} e.
Arguments localstorage_Client {W} e.
Arguments Listener_Close {W} e.
Arguments version_Current {W} e.
Arguments Filter {W} e.
Arguments Filter_zero {W} e.
Arguments tools_FindTools {W} e.
Arguments Number_String {W} e.
Arguments tools_MarshalToolsMetadataJSON {W} e.
Arguments simplestreams_DefaultIndexPath {W} e.
Arguments simplestreams_UnsignedSuffix {W} e.
Arguments tools_ProductMetadataPath {W} e.
Arguments url_Parse {W} e.
Arguments http_Get {W} e.
Arguments filepath_Join {W} e.
Arguments localdirEnv_Environ_iface {W} e.
Arguments mklocaldirEnv {W} localdirEnv_Environ localdirEnv_storage.
Arguments localdirEnv_Storage {W} e.
Arguments Storage_URL {W} s name w.
Arguments Storage_Put {W} s name data length w.
Arguments Environ_Name {W} e.
Arguments Environ_Storage {W} e.
Arguments mkEnviron {W} Environ_Name Environ_Storage.
Arguments mkStorage {W} Storage_URL Storage_Put.
Arguments M W A : clear implicits.
Arguments ret {W A} a w.
Arguments throw {W A} e w.
Arguments panic {W A} msg w.
Arguments bind {W A B} m k w.
Arguments call {W A} f ev w.
Arguments eval {W A} a ev w.
Arguments log {W} ev w.
Arguments defer {W A} cleanup body w.
Arguments Fprint {W} text w.
Arguments fetchToolsHash {W} X url w.
Arguments Run_record {W} X c t w.
Arguments Run_assemble {W} X c toolsList w.
Arguments Run_publish {W} X c env err objects w.
Arguments objects {W} X index products.
Arguments Run_main {W} X c env w.
Arguments Run {W} X c w.

(** What is observed of a finished call: how it ended, and its log. *)
Definition outcome {A W : Type} (x : result A * W * list Event) : result A :=
  fst (fst x).
Definition events {A W : Type} (x : result A * W * list Event) : list Event :=
  snd x.

(** The objects a log shows as stored: the [Put] calls that returned nil,
    in order. *)
Fixpoint written (tr : list Event) : list (string * bytes) :=
  match tr with
  | [] => []
  | EvStoragePut name data _ None :: rest => (name, data) :: written rest
  | _ :: rest => written rest
  end.

(** All [Put] calls of a log, with the error each returned. *)
Fixpoint attempts (tr : list Event) : list (string * bytes * option error) :=
  match tr with
  | [] => []
  | EvStoragePut name data _ err :: rest => (name, data, err) :: attempts rest
  | _ :: rest => attempts rest
  end.

(** The lines printed, in order. *)
Fixpoint printed (tr : list Event) : list string :=
  match tr with
  | [] => []
  | EvPrint text :: rest => text :: printed rest
  | _ :: rest => printed rest
  end.

(** The stages of a run, after the orchestration of the command:
    0 set-up, 1 discovery, 2 hashing and assembly, 3 serialization,
    4 publishing, 5 tear-down.  Progress lines belong to no stage. *)
Definition stage (ev : Event) : option nat :=
  match ev with
  | EvNewFromName _ _ | EvServe _ _ _ => Some 0%nat
  | EvFindTools _ _ => Some 1%nat
  | EvURLParse _ _ | EvHttpGet _ _ | EvCopy _ _ | EvBodyClose => Some 2%nat
  | EvMarshal _ _ => Some 3%nat
  | EvStorageURL _ _ | EvStoragePut _ _ _ _ => Some 4%nat
  | EvListenerClose _ => Some 5%nat
  | EvPrint _ => None
  end.

(** A log all of whose interactions are at stage [k]. *)
Definition at_stage (k : nat) (tr : list Event) : Prop :=
  Forall (fun ev => stage ev = Some k \/ stage ev = None) tr.

(** A log whose stages never go back, starting at [lo] or later. *)
Fixpoint staged (lo : nat) (tr : list Event) : Prop :=
  match tr with
  | [] => True
  | ev :: rest =>
      match stage ev with
      | None => staged lo rest
      | Some n => (lo <= n)%nat /\ staged n rest
      end
  end.

(** Nothing in the log failed. *)
Definition fault_free (tr : list Event) : Prop :=
  Forall (fun ev => event_error ev = None) tr.

(** Releasing what was acquired: closing a response body or the
    listener. *)
Definition is_cleanup (ev : Event) : Prop :=
  match ev with
  | EvBodyClose | EvListenerClose _ => True
  | _ => False
  end.

(** The first-failure discipline: a call that returns an error returns the
    error of the one interaction that failed, nothing failed before it, and
    after it there is cleanup only; a call that ends otherwise saw no
    failure. *)
Definition disciplined {A : Type} (r : result A) (tr : list Event) : Prop :=
  match r with
  | Err e =>
      exists pre ev post,
        tr = pre ++ ev :: post /\ fault_free pre /\
        event_error ev = Some e /\ Forall is_cleanup post
  | _ => fault_free tr
  end.

(* ===================================================================== *)
(** ** The vocabulary of the properties *)
(* ===================================================================== *)

Section Vocabulary.

Variable W : Type.
Variable X : Externals W.

(** The bytes a response body delivers. *)
Definition body_bytes (resp : Response) : bytes :=
  List.concat (Reader_chunks (Response_Body resp)).

(** The record [Run] makes of a tarball once it has its path, its size
    and its digest. *)
Definition record_of (t : Tools) (urlPath : string) (size : Z) (sha256hex : string)
    : ToolsMetadata :=
  {| ToolsMetadata_Release := Binary_Series (Tools_Version t);
     ToolsMetadata_Version := Number_String X (Binary_Number (Tools_Version t));
     ToolsMetadata_Arch := Binary_Arch (Tools_Version t);
     ToolsMetadata_Path := urlPath;
     ToolsMetadata_FileType := "tar.gz";
     ToolsMetadata_Size := size;
     ToolsMetadata_SHA256 := sha256hex |}.

Definition fetching (url : string) : Event :=
  EvPrint ("Fetching tools to generate hash: " ++ url
             ++ String "010" EmptyString)%string.

Definition writing (path : string) : Event :=
  EvPrint ("Writing " ++ path ++ String "010" EmptyString)%string.

(** Whether the command writes to a local directory. *)
Definition local_mode (c : ToolsMetadataCommand) : bool :=
  negb (String.eqb (metadataDir c) EmptyString).

Definition put_event (name : string) (data : bytes) (err : option error) : Event :=
  EvStoragePut name data (int64 (blen data)) err.

(** The first progress line. *)
Definition finding : Event :=
  EvPrint ("Finding tools..." ++ String "010" EmptyString)%string.

Definition major : Z := Number_Major (Binary_Number (version_Current X)).

(** The command as [Run] leaves it for the rest of a local-directory
    run: [c.metadataDir] is normalized. *)
Definition normalized (c : ToolsMetadataCommand) : ToolsMetadataCommand :=
  mkCommand (EnvName c) (fetch c) (utils_NormalizePath X (metadataDir c)).

(** What a log shows of the record [m] made for the tarball [t]: the
    path is the URL's path from its second byte on; without fetching,
    no size and no digest; with fetching, size and digest are those of
    the bytes of a body that was read to its end from the tarball's
    URL. *)
Definition assembled (c : ToolsMetadataCommand) (tr : list Event)
    (t : Tools) (m : ToolsMetadata) : Prop :=
  (exists u urlPath,
      url_Parse X (Tools_URL t) = inr u /\
      slice_from_1 (URL_Path u) = Some urlPath /\
      m = record_of t urlPath (ToolsMetadata_Size m) (ToolsMetadata_SHA256 m)) /\
  (if fetch c then
     exists resp,
       In (EvHttpGet (Tools_URL t) (inr resp)) tr /\
       Reader_err (Response_Body resp) = None /\
       ToolsMetadata_Size m = int64 (blen (body_bytes resp)) /\
       ToolsMetadata_SHA256 m = Sprintf_x (SHA256.Sum256 (body_bytes resp))
   else ToolsMetadata_Size m = 0 /\ ToolsMetadata_SHA256 m = EmptyString).

End Vocabulary.

Arguments record_of {W} X t urlPath size sha256hex.
Arguments major {W} X.
Arguments normalized {W} X c.
Arguments assembled {W} X c tr t m.

(** A [Put] that returned nil, as [attempts] lists it. *)
Definition stored (o : string * bytes) : string * bytes * option error :=
  (o, None).

(** Every address that was resolved is reported and then the object is
    put, whatever the address is. *)
Fixpoint resolved_then_put (tr : list Event) : Prop :=
  match tr with
  | [] => True
  | EvStorageURL name (inr objectUrl) :: rest =>
      (exists data err rest',
          rest = writing objectUrl :: put_event name data err :: rest') /\
      resolved_then_put rest
  | _ :: rest => resolved_then_put rest
  end.

(** Downloading a tarball: the request or the reading of its body. *)
Definition is_fetch (ev : Event) : Prop :=
  match ev with
  | EvHttpGet _ _ | EvCopy _ _ => True
  | _ => False
  end.


(** What a log shows of the size and digest of the record [m] made for
    the tarball [t]: without fetching, none; with fetching, those of the
    bytes of a body read to its end from the tarball's URL. *)
Definition sized (c : ToolsMetadataCommand) (tr : list Event)
    (t : Tools) (m : ToolsMetadata) : Prop :=
  if fetch c then
    exists resp,
      In (EvHttpGet (Tools_URL t) (inr resp)) tr /\
      Reader_err (Response_Body resp) = None /\
      ToolsMetadata_Size m = blen (body_bytes resp) /\
      ToolsMetadata_SHA256 m = Sprintf_x (SHA256.Sum256 (body_bytes resp))
  else ToolsMetadata_Size m = 0 /\ ToolsMetadata_SHA256 m = EmptyString.

(** A path that begins with the separator. *)
Definition leading_separator (path : string) : bool :=
  match path with
  | String a _ => Ascii.eqb a "/"
  | EmptyString => false
  end.

(** A path that begins with two separators. *)
Definition doubled_separator (path : string) : bool :=
  match path with
  | String a rest => Ascii.eqb a "/" && leading_separator rest
  | EmptyString => false
  end.

(** The progress line for an object written at [path]. *)
Definition report (path : string) : string :=
  ("Writing " ++ path ++ String "010" EmptyString)%string.

(* ===================================================================== *)
(** ** A concrete set of collaborators *)
(* ===================================================================== *)

(** Executable stand-ins for what [Externals] leaves open, so that the
    command can be run: the library functions follow Go's on the inputs
    used here (absolute [http] URLs without escapes, Unix paths); storage,
    discovery, the web and the marshaller are small fakes driven by a
    [Config]. *)
Module Scenario.

(** The world is what the storage holds, oldest object first. *)
Definition World : Type := list (string * bytes).

(** [strings.Index]-like cut of [s] at the first [c]: the part before,
    and the part from [c] on if [c] occurs. *)
Fixpoint cut (c : ascii) (s : string) : string * option string :=
  match s with
  | EmptyString => (EmptyString, None)
  | String a rest =>
      if Ascii.eqb a c then (EmptyString, Some s)
      else let (before, from) := cut c rest in (String a before, from)
  end.

Definition is_letter (a : ascii) : bool :=
  let n := N_of_ascii a in
  ((65 <=? n) && (n <=? 90) || (97 <=? n) && (n <=? 122))%N.

Definition is_scheme_char (a : ascii) : bool :=
  let n := N_of_ascii a in
  ((48 <=? n) && (n <=? 57) || (n =? 43) || (n =? 45) || (n =? 46))%N.

(** [getscheme] of [net/url]: [first] tells whether [s] is all of the
    raw URL. *)
Fixpoint getscheme (first : bool) (s : string) : error + option (string * string) :=
  match s with
  | EmptyString => inr None
  | String a rest =>
      if is_letter a then
        match getscheme false rest with
        | inr (Some (scheme, after)) => inr (Some (String a scheme, after))
        | other => other
        end
      else if is_scheme_char a then
        if first then inr None
        else match getscheme false rest with
             | inr (Some (scheme, after)) => inr (Some (String a scheme, after))
             | other => other
             end
      else if Ascii.eqb a ":" then
        if first then inl "missing protocol scheme"
        else inr (Some (EmptyString, rest))
      else inr None
  end.

Definition has_prefix (p s : string) : bool := String.prefix p s.

Definition drop (n : nat) (s : string) : string :=
  String.substring n (String.length s - n) s.

(** [url.Parse] on raw URLs without percent escapes and user
    information. *)
Definition parse_url (rawurl : string) : error + URL :=
  let (u, _) := cut "#" rawurl in
  if String.eqb u "*" then inr (mkURL EmptyString EmptyString "*")
  else
    match getscheme true u with
    | inl e => inl ("parse " ++ rawurl ++ ": " ++ e)%string
    | inr sch =>
        let (scheme, rest) :=
          match sch with Some p => p | None => (EmptyString, u) end in
        let (rest, _) := cut "?" rest in
        if negb (has_prefix "/" rest) && negb (String.eqb scheme EmptyString) then
          inr (mkURL scheme EmptyString EmptyString)
        else if (negb (String.eqb scheme EmptyString) || negb (has_prefix "///" rest))
                && has_prefix "//" rest then
          let (authority, path) := cut "/" (drop 2 rest) in
          inr (mkURL scheme authority
                     (match path with Some p => p | None => EmptyString end))
        else inr (mkURL scheme EmptyString rest)
    end.

(** The elements of a slash-separated path. *)
Fixpoint split_path (s : string) : list string :=
  match s with
  | EmptyString => [EmptyString]
  | String a rest =>
      if Ascii.eqb a "/" then EmptyString :: split_path rest
      else match split_path rest with
           | [] => [String a EmptyString]
           | x :: xs => String a x :: xs
           end
  end.

(** One element of a path against the elements kept so far, last kept
    first. *)
Definition clean_step (rooted : bool) (kept : list string) (elem : string)
    : list string :=
  if String.eqb elem EmptyString || String.eqb elem "." then kept
  else if String.eqb elem ".." then
    match kept with
    | [] => if rooted then [] else [elem]
    | top :: below => if String.eqb top ".." then elem :: kept else below
    end
  else elem :: kept.

(** [filepath.Clean] on Unix. *)
Definition clean_path (path : string) : string :=
  let rooted := has_prefix "/" path in
  let kept := List.rev (List.fold_left (clean_step rooted) (split_path path) []) in
  if rooted then ("/" ++ String.concat "/" kept)%string
  else match kept with
       | [] => "."
       | _ => String.concat "/" kept
       end.

(** [filepath.Join] of two elements. *)
Definition join_path (a b : string) : string :=
  if negb (String.eqb a EmptyString) then clean_path (a ++ "/" ++ b)%string
  else if negb (String.eqb b EmptyString) then clean_path b
  else EmptyString.

Definition decimal (z : Z) : string := NilZero.string_of_int (Z.to_int z).

(** [version.Number.String]. *)
Definition number_string (n : Number) : string :=
  let s := (decimal (Number_Major n) ++ "." ++ decimal (Number_Minor n)
              ++ "." ++ decimal (Number_Patch n))%string in
  if 0 <? Number_Build n then (s ++ "." ++ decimal (Number_Build n))%string
  else s.

(** What a scenario fixes: the tools discovery finds, what the web
    serves, and which storage calls and whether marshalling fail. *)
Record Config : Type := mkConfig
  { found : error + list Tools;
    web : string -> error + Response;
    url_fails : string -> option error;
    put_fails : string -> option error;
    marshal_fails : option error }.

Definition storage (cfg : Config) (base : string) : Storage World :=
  {| Storage_URL := fun name w =>
       (match url_fails cfg name with
        | Some e => inl e
        | None => inr (base ++ name)%string
        end, w);
     Storage_Put := fun name data _ w =>
       match put_fails cfg name with
       | Some e => (Some e, w)
       | None => (None, w ++ [(name, data)])
       end |}.

(** A line per record, standing for the products document. *)
Definition line (m : ToolsMetadata) : string :=
  (ToolsMetadata_Release m ++ " " ++ ToolsMetadata_Version m ++ " "
     ++ ToolsMetadata_Arch m ++ " " ++ ToolsMetadata_Path m ++ " "
     ++ ToolsMetadata_FileType m ++ " " ++ decimal (ToolsMetadata_Size m)
     ++ " " ++ ToolsMetadata_SHA256 m ++ String "010" EmptyString)%string.

Definition marshal (cfg : Config) (metadata : list ToolsMetadata)
    : error + (bytes * bytes) :=
  match marshal_fails cfg with
  | Some e => inl e
  | None =>
      inr (bytes_of_string "com.ubuntu.juju:released:tools",
           bytes_of_string (String.concat EmptyString (List.map line metadata)))
  end.

Definition externals (cfg : Config) : Externals World :=
  {| environs_NewFromName := fun name w =>
       (inr (mkEnviron name (storage cfg "https://storage.example/")), w);
     utils_NormalizePath := clean_path;
     localstorage_Serve := fun addr dir w => (inr (mkListener "127.0.0.1:40000"), w);
     localstorage_Client := fun addr => storage cfg ("http://" ++ addr ++ "/")%string;
     Listener_Close := fun _ w => w;
     version_Current := mkBinary (mkNumber 1 2 3 0) "ubuntu" "amd64";
     Filter := unit;
     Filter_zero := tt;
     tools_FindTools := fun _ _ _ w => (found cfg, w);
     Number_String := number_string;
     tools_MarshalToolsMetadataJSON := fun metadata w => (marshal cfg metadata, w);
     simplestreams_DefaultIndexPath := "streams/v1/index";
     simplestreams_UnsignedSuffix := ".json";
     tools_ProductMetadataPath := "streams/v1/com.ubuntu.juju:released:tools.json";
     url_Parse := parse_url;
     http_Get := fun url w => (web cfg url, w);
     filepath_Join := join_path |}.

(** The tarball of the 1.2.3 tools for ubuntu on amd64, and 42 bytes
    served for it in two reads. *)
Definition tarball : Tools :=
  mkTools (mkBinary (mkNumber 1 2 3 0) "ubuntu" "amd64")
          "https://host/tools/1.2.3/ubuntu-amd64.tar.gz".

Definition content : list bytes :=
  [ bytes_of_string "juju tools 1.2.3 for ubuntu ";
    bytes_of_string "on amd64 (tgz)" ].

Definition serve (status : Z) (url : string) : error + Response :=
  inr (mkResponse status (mkReader content None)).

(** Everything works. *)
Definition healthy (ts : list Tools) : Config :=
  mkConfig (inr ts) (serve 200) (fun _ => None) (fun _ => None) None.

Definition remote (with_fetch : bool) : ToolsMetadataCommand :=
  mkCommand "test" with_fetch EmptyString.

Definition local (with_fetch : bool) : ToolsMetadataCommand :=
  mkCommand "test" with_fetch "/tmp/out".

(** The record expected for [tarball] when it is fetched. *)
Definition expected : ToolsMetadata :=
  {| ToolsMetadata_Release := "ubuntu";
     ToolsMetadata_Version := "1.2.3";
     ToolsMetadata_Arch := "amd64";
     ToolsMetadata_Path := "tools/1.2.3/ubuntu-amd64.tar.gz";
     ToolsMetadata_FileType := "tar.gz";
     ToolsMetadata_Size := 42;
     ToolsMetadata_SHA256 :=
       "98876b22a394e08ece4e2fb4bb0809bcc73e5a79d001d7b8631a6520667d0d7f" |}.

(** Two more tarballs, for runs over several of them. *)
Definition tarball_i386 : Tools :=
  mkTools (mkBinary (mkNumber 1 2 3 0) "ubuntu" "i386")
          "https://host/tools/1.2.3/ubuntu-i386.tar.gz".

Definition tarball_arm : Tools :=
  mkTools (mkBinary (mkNumber 1 2 3 0) "ubuntu" "arm")
          "https://host/tools/1.2.3/ubuntu-arm.tar.gz".

(** A tarball at the root of its host: the URL has no path. *)
Definition bare : Tools :=
  mkTools (mkBinary (mkNumber 1 2 3 0) "ubuntu" "amd64") "https://host".

(** A tarball whose URL has a doubled separator after the host. *)
Definition doubled : Tools :=
  mkTools (mkBinary (mkNumber 1 2 3 0) "ubuntu" "amd64")
          "https://host//tools/1.2.3/ubuntu-amd64.tar.gz".

(** The web refuses the connection for one URL. *)
Definition refusing (url : string) (ts : list Tools) : Config :=
  mkConfig (inr ts)
           (fun u => if String.eqb u url then inl "connection refused"
                     else serve 200 u)
           (fun _ => None) (fun _ => None) None.

(** The marshaller rejects the records. *)
Definition unmarshallable (ts : list Tools) : Config :=
  mkConfig (inr ts) (serve 200) (fun _ => None) (fun _ => None)
           (Some "invalid metadata").

(** The storage cannot tell the address of any object. *)
Definition unresolvable (cfg : Config) : Config :=
  mkConfig (found cfg) (web cfg) (fun _ => Some "no address")
           (put_fails cfg) (marshal_fails cfg).

(** The storage refuses the products document. *)
Definition products_refused (ts : list Tools) : Config :=
  mkConfig (inr ts) (serve 200) (fun _ => None)
           (fun name =>
              if String.eqb name "tools/streams/v1/com.ubuntu.juju:released:tools.json"
              then Some "quota exceeded" else None)
           None.

(** The collaborators of the runs below. *)
Definition one_tarball : Externals World := externals (healthy [tarball]).

Definition second_refused : Externals World :=
  externals (refusing (Tools_URL tarball_i386)
                      [tarball; tarball_i386; tarball_arm]).

Definition rejected_records : Externals World :=
  externals (unmarshallable [tarball]).

Definition nothing_found : Externals World := externals (healthy []).

Definition second_bare : Externals World := externals (healthy [tarball; bare]).

Definition one_doubled : Externals World := externals (healthy [doubled]).

Definition refused_products : Externals World :=
  externals (products_refused []).

(** A storage other than that of the environments. *)
Definition elsewhere : Storage World :=
  storage (unresolvable (healthy [])) "https://elsewhere.example/".

(** The record made of [doubled]. *)
Definition doubled_record : ToolsMetadata :=
  {| ToolsMetadata_Release := "ubuntu";
     ToolsMetadata_Version := "1.2.3";
     ToolsMetadata_Arch := "amd64";
     ToolsMetadata_Path := "/tools/1.2.3/ubuntu-amd64.tar.gz";
     ToolsMetadata_FileType := "tar.gz";
     ToolsMetadata_Size := 0;
     ToolsMetadata_SHA256 := EmptyString |}.

End Scenario.

(** The sentences of the specification that the command does not
    satisfy, as they are written. *)

(** "Every emitted path has no leading path separator." *)
Definition paths_without_leading_separator {W : Type} (X : Externals W) : Prop :=
  forall c w md res m,
    In (EvMarshal md res) (events (Run X c w)) -> In m md ->
    leading_separator (ToolsMetadata_Path m) = false.

(** "Whether [Run] succeeds or which error it returns does not depend on
    the outcome of address resolution": two storages that differ in
    nothing but whether addresses resolve give the same outcome. *)
Definition outcome_independent_of_resolution : Prop :=
  forall cfg c w,
    outcome (Run (Scenario.externals (Scenario.unresolvable cfg)) c w)
    = outcome (Run (Scenario.externals cfg) c w).



(* ===================================================================== *)
(** ** More of what a log shows *)
(* ===================================================================== *)

(** The hashing and assembly part of a log. *)
Definition in_assembly (ev : Event) : bool :=
  match stage ev with
  | Some 2%nat => true
  | _ => false
  end.

Definition assembly_of (tr : list Event) : list Event :=
  List.filter in_assembly tr.

(** The URLs parsed, in order. *)
Definition parsed (ev : Event) : list string :=
  match ev with EvURLParse rawurl _ => [rawurl] | _ => [] end.
Definition parses (tr : list Event) : list string := List.flat_map parsed tr.

(** The URLs requested, in order, whether the request succeeded or
    not. *)
Definition requested (ev : Event) : list string :=
  match ev with EvHttpGet url _ => [url] | _ => [] end.
Definition gets (tr : list Event) : list string := List.flat_map requested tr.

(** The responses obtained, and the bodies closed. *)
Definition response_of (ev : Event) : list Response :=
  match ev with EvHttpGet _ (inr resp) => [resp] | _ => [] end.
Definition responses (tr : list Event) : list Response :=
  List.flat_map response_of tr.

Definition close_of (ev : Event) : list unit :=
  match ev with EvBodyClose => [tt] | _ => [] end.
Definition closes (tr : list Event) : list unit := List.flat_map close_of tr.

(** The major versions discovery was asked for. *)
Definition discovery_of (ev : Event) : list Z :=
  match ev with EvFindTools mj _ => [mj] | _ => [] end.
Definition discoveries (tr : list Event) : list Z :=
  List.flat_map discovery_of tr.


(** A string of lower-case hexadecimal digits. *)
Definition is_hex (a : ascii) : bool :=
  let n := N_of_ascii a in
  ((48 <=? n) && (n <=? 57) || (97 <=? n) && (n <=? 102))%N.

Fixpoint all_hex (s : string) : bool :=
  match s with
  | EmptyString => true
  | String a rest => is_hex a && all_hex rest
  end.

(** The addresses that resolved, and the names of the objects put,
    successfully or not, in order. *)
Definition resolution_of (ev : Event) : list string :=
  match ev with EvStorageURL _ (inr objectUrl) => [objectUrl] | _ => [] end.
Definition resolved (tr : list Event) : list string :=
  List.flat_map resolution_of tr.

Definition put_name_of (ev : Event) : list string :=
  match ev with EvStoragePut name _ _ _ => [name] | _ => [] end.
Definition put_names (tr : list Event) : list string :=
  List.flat_map put_name_of tr.

Section Alphabet.

Variable W : Type.
Variable X : Externals W.

(** The paths of the two objects. *)
Definition index_path : string :=
  (pathPrefix ++ simplestreams_DefaultIndexPath X
              ++ simplestreams_UnsignedSuffix X)%string.

Definition products_path : string :=
  (pathPrefix ++ tools_ProductMetadataPath X)%string.

(** The interactions [Run_main] can have, for the command it is given:
    it downloads only when fetching is enabled, resolves addresses only
    when there is no local directory, and puts nothing but the two
    objects, with the length of their data. *)
Definition in_main (c : ToolsMetadataCommand) (ev : Event) : Prop :=
  match ev with
  | EvPrint _ | EvMarshal _ _ => True
  | EvFindTools mj _ => mj = major X
  | EvURLParse rawurl res => res = url_Parse X rawurl
  | EvHttpGet _ _ | EvCopy _ _ | EvBodyClose => fetch c = true
  | EvStorageURL name _ =>
      local_mode c = false /\ (name = index_path \/ name = products_path)
  | EvStoragePut name data length _ =>
      length = int64 (blen data) /\ (name = index_path \/ name = products_path)
  | EvNewFromName _ _ | EvServe _ _ _ | EvListenerClose _ => False
  end.

(** The interactions [Run] can have: those of [Run_main], the look-up
    of the environment by its name and, with a local directory, the
    listener serving the normalized directory on a loopback address. *)
Definition in_run (c : ToolsMetadataCommand) (ev : Event) : Prop :=
  match ev with
  | EvNewFromName name _ => name = EnvName c
  | EvServe addr dir _ =>
      local_mode c = true /\ addr = "127.0.0.1:0" /\
      dir = utils_NormalizePath X (metadataDir c)
  | EvListenerClose _ => local_mode c = true
  | _ => in_main (if local_mode c then normalized X c else c) ev
  end.

(** The places [Run_main] reports writing to: with a local directory,
    the directory joined with the name of each object put; without, each
    address that resolved. *)
Definition announced (c : ToolsMetadataCommand) (tr : list Event) : list string :=
  if local_mode c
  then List.map (filepath_Join X (metadataDir c)) (put_names tr)
  else resolved tr.

(** The progress lines that go with the interactions of a log: the
    search is announced before each discovery, each request before it is
    made, and each place written to. *)
Definition progress (c : ToolsMetadataCommand) (tr : list Event) : list Event :=
  List.map (fun _ => finding) (discoveries tr)
    ++ List.map fetching (gets tr)
    ++ List.map writing (announced c tr).

(** The same collaborators, except that every environment has the storage
    [s] for its own. *)
Definition with_storage (s : Storage W) : Externals W :=
  {| environs_NewFromName := fun name w =>
       match environs_NewFromName X name w with
       | (inr env, w1) => (inr (mkEnviron (Environ_Name env) s), w1)
       | (inl e, w1) => (inl e, w1)
       end;
     utils_NormalizePath := utils_NormalizePath X;
     localstorage_Serve := localstorage_Serve X;
     localstorage_Client := localstorage_Client X;
     Listener_Close := Listener_Close X;
     version_Current := version_Current X;
     Filter := Filter X;
     Filter_zero := Filter_zero X;
     tools_FindTools := tools_FindTools X;
     Number_String := Number_String X;
     tools_MarshalToolsMetadataJSON := tools_MarshalToolsMetadataJSON X;
     simplestreams_DefaultIndexPath := simplestreams_DefaultIndexPath X;
     simplestreams_UnsignedSuffix := simplestreams_UnsignedSuffix X;
     tools_ProductMetadataPath := tools_ProductMetadataPath X;
     url_Parse := url_Parse X;
     http_Get := http_Get X;
     filepath_Join := filepath_Join X |}.

End Alphabet.

Arguments index_path {W} X.
Arguments products_path {W} X.
Arguments in_main {W} X c ev.
Arguments in_run {W} X c ev.
Arguments with_storage {W} X s.
Arguments announced {W} X c tr.
Arguments progress {W} X c tr.

(* ===================================================================== *)
(** ** Test vectors and arithmetic of the Go values *)
(* ===================================================================== *)

(** The two standard one-block test vectors. *)
Example sha256_empty :
  Go.Sprintf_x (SHA256.Sum256 []) =
  "e3b0c44298fc1c149afbf4c8996fb92427ae41e4649b934ca495991b7852b855".
Proof. vm_compute. reflexivity. Qed.

Example sha256_abc :
  Go.Sprintf_x (SHA256.Sum256 (Go.bytes_of_string "abc")) =
  "ba7816bf8f01cfea414140de5dae2223b00361a396177a9cb410ff61f20015ad".
Proof. vm_compute. reflexivity. Qed.

(** The derived constants are those of the standard. *)
Example sha256_constants :
  List.length SHA256.K = 64%nat /\
  List.nth 0 SHA256.K 0 = 0x428a2f98 /\ List.nth 63 SHA256.K 0 = 0xc67178f2 /\
  List.nth 0 SHA256.H0 0 = 0x6a09e667 /\ List.nth 7 SHA256.H0 0 = 0x5be0cd19.
Proof. repeat split; reflexivity. Qed.

(** A two-block message (56 bytes). *)
Example sha256_two_blocks :
  Go.Sprintf_x (SHA256.Sum256 (Go.bytes_of_string
    "abcdbcdecdefdefgefghfghighijhijkijkljklmklmnlmnomnopnopq")) =
  "248d6a61d20638b8e5c026930c3e6039a33ce45964ff2167f6ecedd419db06c1".
Proof. vm_compute. reflexivity. Qed.

Lemma int64_small (z : Z) : -2 ^ 63 <= z < 2 ^ 63 -> int64 z = z.
Proof.
  intros Hz. unfold int64.
  rewrite Z.mod_small by lia. lia.
Qed.

Lemma int64_add_l (a b : Z) : int64 (int64 a + b) = int64 (a + b).
Proof.
  unfold int64. f_equal.
  replace ((a + 2 ^ 63) mod 2 ^ 64 - 2 ^ 63 + b + 2 ^ 63)
    with ((a + 2 ^ 63) mod 2 ^ 64 + b) by lia.
  rewrite Z.add_mod_idemp_l by lia.
  f_equal. lia.
Qed.

Lemma blen_app (a b : bytes) : blen (a ++ b) = blen a + blen b.
Proof. unfold blen. rewrite List.length_app. lia. Qed.

(** [io.Copy] hands every byte read to the hash, in order, and counts
    them. *)
Lemma io_Copy_loop_spec (chunks : list bytes) :
  forall (dst : Hash) (rerr : option error) (acc : Z),
    io_Copy_loop dst chunks rerr (int64 acc) =
    (int64 (acc + blen (List.concat chunks)),
     mkHash (Hash_written dst ++ List.concat chunks), rerr).
Proof.
  induction chunks as [|buf rest IH]; intros dst rerr acc; simpl.
  - rewrite Z.add_0_r, List.app_nil_r. destruct dst; reflexivity.
  - destruct (0 <? blen buf) eqn:Hlen.
    + rewrite int64_add_l, IH. simpl.
      rewrite blen_app, List.app_assoc. do 3 f_equal. lia.
    + apply Z.ltb_ge in Hlen.
      assert (Hnil : buf = []).
      { destruct buf; [reflexivity|]. unfold blen in Hlen. simpl in Hlen. lia. }
      subst buf. rewrite IH. simpl. reflexivity.
Qed.

Lemma io_Copy_spec (src : Reader) :
  io_Copy sha256_New src =
  (int64 (blen (List.concat (Reader_chunks src))),
   mkHash (List.concat (Reader_chunks src)), Reader_err src).
Proof.
  unfold io_Copy. change 0 with (int64 0) at 1.
  rewrite io_Copy_loop_spec. reflexivity.
Qed.

(* ===================================================================== *)
(** ** Logs *)
(* ===================================================================== *)

Lemma written_app (t1 t2 : list Event) :
  written (t1 ++ t2) = written t1 ++ written t2.
Proof.
  induction t1 as [|ev t1 IH]; simpl; [reflexivity|].
  destruct ev; try exact IH.
  destruct err; [exact IH|]. simpl. now rewrite IH.
Qed.

Lemma attempts_app (t1 t2 : list Event) :
  attempts (t1 ++ t2) = attempts t1 ++ attempts t2.
Proof.
  induction t1 as [|ev t1 IH]; simpl; [reflexivity|].
  destruct ev; try exact IH. simpl. now rewrite IH.
Qed.

Lemma printed_app (t1 t2 : list Event) :
  printed (t1 ++ t2) = printed t1 ++ printed t2.
Proof.
  induction t1 as [|ev t1 IH]; simpl; [reflexivity|].
  destruct ev; try exact IH. simpl. now rewrite IH.
Qed.

(** Only the publishing stage stores anything. *)
Lemma attempts_at_stage (k : nat) (tr : list Event) :
  at_stage k tr -> k <> 4%nat -> attempts tr = [].
Proof.
  intros Hst Hk. induction Hst as [|ev tr Hev _ IH]; [reflexivity|].
  destruct ev; simpl in *; try exact IH.
  destruct Hev as [Hev|Hev]; [injection Hev; intros; congruence | discriminate].
Qed.

Lemma written_no_attempts (tr : list Event) : attempts tr = [] -> written tr = [].
Proof.
  induction tr as [|ev tr IH]; [reflexivity|].
  destruct ev; simpl; try exact IH. discriminate.
Qed.

Lemma written_at_stage (k : nat) (tr : list Event) :
  at_stage k tr -> k <> 4%nat -> written tr = [].
Proof. intros. eapply written_no_attempts, attempts_at_stage; eassumption. Qed.

Lemma at_stage_app (k : nat) (t1 t2 : list Event) :
  at_stage k t1 -> at_stage k t2 -> at_stage k (t1 ++ t2).
Proof. intros. apply Forall_app. split; assumption. Qed.

Lemma at_stage_in (k : nat) (tr : list Event) (ev : Event) (n : nat) :
  at_stage k tr -> In ev tr -> stage ev = Some n -> n = k.
Proof.
  intros Hst Hin Hn. unfold at_stage in Hst. rewrite Forall_forall in Hst.
  destruct (Hst ev Hin) as [H|H]; congruence.
Qed.

Lemma staged_weaken (tr : list Event) :
  forall lo lo' : nat, (lo' <= lo)%nat -> staged lo tr -> staged lo' tr.
Proof.
  induction tr as [|ev tr IH]; simpl; intros lo lo' Hle H; [exact I|].
  destruct (stage ev).
  - destruct H. split; [lia|assumption].
  - eapply IH; eassumption.
Qed.

Lemma at_stage_staged (k : nat) (tr : list Event) : at_stage k tr -> staged k tr.
Proof.
  induction 1 as [|ev tr Hev _ IH]; simpl; [exact I|].
  destruct Hev as [Hev|Hev]; rewrite Hev; [split; [lia|]|]; exact IH.
Qed.

(** A log whose stages stay at or below [hi], followed by one that starts
    at [hi] or later. *)
Lemma staged_app (hi : nat) (t1 : list Event) :
  forall (lo : nat) (t2 : list Event),
    (lo <= hi)%nat ->
    staged lo t1 ->
    Forall (fun ev => forall n, stage ev = Some n -> (n <= hi)%nat) t1 ->
    staged hi t2 -> staged lo (t1 ++ t2).
Proof.
  induction t1 as [|ev t1 IH]; simpl; intros lo t2 Hle H1 Hhi H2.
  - eapply staged_weaken; eassumption.
  - inversion Hhi as [|? ? Hev Hrest]; subst.
    destruct (stage ev) as [n|] eqn:Hn.
    + destruct H1 as [Hlo H1]. split; [exact Hlo|].
      apply IH; auto.
    + apply IH; assumption.
Qed.

(** In a staged log, what comes before an interaction is at its stage or
    an earlier one, and what comes after at its stage or a later one. *)
Lemma staged_split (pre : list Event) :
  forall (lo : nat) (ev : Event) (post : list Event) (n : nat),
    staged lo (pre ++ ev :: post) -> stage ev = Some n ->
    Forall (fun ev' => forall m, stage ev' = Some m -> (m <= n)%nat) pre /\
    Forall (fun ev' => forall m, stage ev' = Some m -> (n <= m)%nat) post.
Proof.
  induction pre as [|ev0 pre IH]; simpl; intros lo ev post n H Hn.
  - rewrite Hn in H. destruct H as [_ H]. split; [constructor|].
    clear Hn ev. revert n H.
    induction post as [|ev1 post IHp]; simpl; intros n H; constructor.
    + intros m Hm. rewrite Hm in H. tauto.
    + destruct (stage ev1) as [k|].
      * destruct H as [Hk H]. apply IHp in H.
        eapply Forall_impl; [|exact H]. simpl. intros a Ha m Hm.
        specialize (Ha m Hm). lia.
      * apply IHp. exact H.
  - destruct (stage ev0) as [k|] eqn:Hk.
    + destruct H as [Hlo H]. pose proof (IH _ _ _ _ H Hn) as [Hpre Hpost].
      split; [|exact Hpost]. constructor; [|exact Hpre].
      intros m Hm. assert (m = k) by congruence. subst m.
      clear - H Hn. revert k H.
      induction pre as [|ev1 pre IHp]; simpl; intros k H.
      * rewrite Hn in H. tauto.
      * destruct (stage ev1) as [j|].
        -- destruct H as [Hj H]. apply IHp in H. lia.
        -- apply IHp. exact H.
    + pose proof (IH _ _ _ _ H Hn) as [Hpre Hpost].
      split; [|exact Hpost]. constructor; [|exact Hpre].
      intros m Hm. congruence.
Qed.

Lemma fault_free_app (t1 t2 : list Event) :
  fault_free t1 -> fault_free t2 -> fault_free (t1 ++ t2).
Proof. intros. apply Forall_app. split; assumption. Qed.

(** A fault-free prefix in front of a disciplined call. *)
Lemma disciplined_app {A : Type} (r : result A) (t1 t2 : list Event) :
  fault_free t1 -> disciplined r t2 -> disciplined r (t1 ++ t2).
Proof.
  intros H1 H2. destruct r as [a|e|msg]; simpl in *;
    try (apply fault_free_app; assumption).
  destruct H2 as (pre & ev & post & -> & Hpre & Hev & Hpost).
  exists (t1 ++ pre), ev, post. rewrite <- List.app_assoc.
  repeat split; auto using fault_free_app.
Qed.

(** Cleanup after a disciplined call. *)
Lemma disciplined_cleanup {A : Type} (r : result A) (tr : list Event) (ev : Event) :
  is_cleanup ev -> event_error ev = None ->
  disciplined r tr -> disciplined r (tr ++ [ev]).
Proof.
  intros Hc Hn H. destruct r as [a|e|msg]; simpl in *;
    try (apply fault_free_app; [assumption | repeat constructor; assumption]).
  destruct H as (pre & ev0 & post & -> & Hpre & Hev & Hpost).
  exists pre, ev0, (post ++ [ev]). rewrite <- List.app_assoc. simpl.
  repeat split; auto. apply Forall_app. split; [assumption|].
  repeat constructor. assumption.
Qed.

(** In a disciplined log, the interaction that failed is the one whose
    error is returned. *)
Lemma disciplined_failure {A : Type} (r : result A) (tr : list Event)
    (ev : Event) (e : error) :
  disciplined r tr -> In ev tr -> event_error ev = Some e ->
  r = Err e /\
  exists pre post, tr = pre ++ ev :: post /\ fault_free pre /\ Forall is_cleanup post.
Proof.
  intros H Hin Hev.
  assert (Hff : fault_free tr -> False).
  { intros Hff. unfold fault_free in Hff. rewrite Forall_forall in Hff.
    specialize (Hff ev Hin). congruence. }
  destruct r as [a|e'|msg]; simpl in H; try (exfalso; auto; fail).
  destruct H as (pre & ev0 & post & -> & Hpre & Hev0 & Hpost).
  apply in_app_or in Hin. destruct Hin as [Hin|[Heq|Hin]].
  - unfold fault_free in Hpre. rewrite Forall_forall in Hpre.
    specialize (Hpre ev Hin). congruence.
  - subst ev0. split; [congruence|]. exists pre, post. auto.
  - rewrite Forall_forall in Hpost. specialize (Hpost ev Hin).
    destruct ev; simpl in *; try contradiction; discriminate.
Qed.

(** *** The assembly part of a log *)

Lemma assembly_of_app (t1 t2 : list Event) :
  assembly_of (t1 ++ t2) = assembly_of t1 ++ assembly_of t2.
Proof. apply List.filter_app. Qed.

Lemma assembly_of_at_stage (k : nat) (tr : list Event) :
  at_stage k tr -> k <> 2%nat -> assembly_of tr = [].
Proof.
  intros Hst Hk. induction Hst as [|ev tr Hev _ IH]; [reflexivity|].
  unfold assembly_of in *. simpl. unfold in_assembly at 1.
  destruct Hev as [Hev|Hev]; rewrite Hev; [|exact IH].
  destruct k as [|[|[|k]]]; try exact IH. congruence.
Qed.

(** A projection of the log that only looks at the assembly part. *)
Lemma flat_map_assembly {A : Type} (f : Event -> list A) (tr : list Event) :
  (forall ev, in_assembly ev = false -> f ev = []) ->
  List.flat_map f (assembly_of tr) = List.flat_map f tr.
Proof.
  intros Hf. induction tr as [|ev tr IH]; [reflexivity|].
  unfold assembly_of in *. simpl.
  destruct (in_assembly ev) eqn:Hev; simpl; rewrite IH; [reflexivity|].
  rewrite (Hf ev Hev). reflexivity.
Qed.

Lemma parses_assembly (tr : list Event) : parses (assembly_of tr) = parses tr.
Proof.
  apply flat_map_assembly.
  intros ev H; destruct ev; try reflexivity; cbv in H; discriminate H.
Qed.

Lemma gets_assembly (tr : list Event) : gets (assembly_of tr) = gets tr.
Proof.
  apply flat_map_assembly.
  intros ev H; destruct ev; try reflexivity; cbv in H; discriminate H.
Qed.

Lemma responses_assembly (tr : list Event) :
  responses (assembly_of tr) = responses tr.
Proof.
  apply flat_map_assembly.
  intros ev H; destruct ev; try reflexivity; cbv in H; discriminate H.
Qed.

Lemma closes_assembly (tr : list Event) : closes (assembly_of tr) = closes tr.
Proof.
  apply flat_map_assembly.
  intros ev H; destruct ev; try reflexivity; cbv in H; discriminate H.
Qed.

Lemma discoveries_at_stage (k : nat) (tr : list Event) :
  at_stage k tr -> k <> 1%nat -> discoveries tr = [].
Proof.
  intros Hst Hk. induction Hst as [|ev tr Hev _ IH]; [reflexivity|].
  unfold discoveries in *. simpl. rewrite IH.
  destruct ev; simpl in *; try reflexivity.
  destruct Hev as [Hev|Hev]; [injection Hev; intros; congruence | discriminate].
Qed.

(** A projection of the log that ignores the stage a log is at. *)
Lemma flat_map_at_stage {A : Type} (f : Event -> list A) (k : nat)
    (tr : list Event) :
  (forall ev, stage ev = Some k \/ stage ev = None -> f ev = []) ->
  at_stage k tr -> List.flat_map f tr = [].
Proof.
  intros Hf Hst. induction Hst as [|ev tr Hev _ IH]; [reflexivity|].
  simpl. rewrite IH, (Hf ev Hev). reflexivity.
Qed.

Lemma gets_at_stage4 (tr : list Event) : at_stage 4 tr -> gets tr = [].
Proof.
  apply flat_map_at_stage.
  intros ev [H|H]; destruct ev; try reflexivity; discriminate H.
Qed.

Lemma resolved_at_stage2 (tr : list Event) : at_stage 2 tr -> resolved tr = [].
Proof.
  apply flat_map_at_stage.
  intros ev [H|H]; destruct ev; try reflexivity; discriminate H.
Qed.

Lemma put_names_at_stage2 (tr : list Event) : at_stage 2 tr -> put_names tr = [].
Proof.
  apply flat_map_at_stage.
  intros ev [H|H]; destruct ev; try reflexivity; discriminate H.
Qed.

(** *** Tactics on logs *)

(** What is observed of a call whose result is known. *)
Ltac observe := unfold outcome, events in *; simpl fst in *; simpl snd in *.

(** An interaction at a stage its part of the log does not have. *)
Ltac stage_clash :=
  match goal with
  | H : In ?ev ?t, Hs : at_stage ?k ?t |- _ =>
      let Hc := fresh in
      pose proof (at_stage_in k t ev _ Hs H eq_refl) as Hc; discriminate Hc
  end.

(** Where in a log an interaction is. *)
Ltac split_in :=
  repeat match goal with
         | H : In _ (_ :: _) |- _ => destruct H as [H|H]
         | H : In _ (_ ++ _) |- _ => apply in_app_or in H; destruct H as [H|H]
         | H : In _ [] |- _ => destruct H
         end.

(* ===================================================================== *)
(** ** The command, step by step *)
(* ===================================================================== *)

Section Anatomy.

Variable W : Type.
Variable X : Externals W.

(** [fetchToolsHash], case by case. *)
Lemma fetchToolsHash_eq (url : string) (w : W) :
  fetchToolsHash X url w =
  match http_Get X url w with
  | (inl e, w1) => (Ok (0, None, Some e), w1, [EvHttpGet url (inl e)])
  | (inr resp, w1) =>
      (Ok (int64 (blen (body_bytes resp)), Some (mkHash (body_bytes resp)),
           Reader_err (Response_Body resp)),
       w1,
       [EvHttpGet url (inr resp);
        EvCopy (int64 (blen (body_bytes resp))) (Reader_err (Response_Body resp));
        EvBodyClose])
  end.
Proof.
  unfold fetchToolsHash, bind, call.
  destruct (http_Get X url w) as [[e|resp] w1]; simpl; [reflexivity|].
  rewrite io_Copy_spec. reflexivity.
Qed.

(** The body of the loop, case by case. *)
Lemma Run_record_eq (c : ToolsMetadataCommand) (t : Tools) (w : W) :
  Run_record X c t w =
  let url := Tools_URL t in
  match url_Parse X url with
  | inl e => (Err e, w, [EvURLParse url (inl e)])
  | inr u =>
      match slice_from_1 (URL_Path u) with
      | None => (Panic "runtime error: slice bounds out of range", w,
                 [EvURLParse url (inr u)])
      | Some urlPath =>
          if fetch c then
            match http_Get X url w with
            | (inl e, w1) =>
                (Err e, w1,
                 [EvURLParse url (inr u); fetching url; EvHttpGet url (inl e)])
            | (inr resp, w1) =>
                let size := int64 (blen (body_bytes resp)) in
                let tr := [EvURLParse url (inr u); fetching url;
                           EvHttpGet url (inr resp);
                           EvCopy size (Reader_err (Response_Body resp));
                           EvBodyClose] in
                match Reader_err (Response_Body resp) with
                | Some e => (Err e, w1, tr)
                | None =>
                    (Ok (record_of X t urlPath size
                           (Sprintf_x (SHA256.Sum256 (body_bytes resp)))),
                     w1, tr)
                end
            end
          else (Ok (record_of X t urlPath 0 EmptyString), w, [EvURLParse url (inr u)])
      end
  end.
Proof.
  unfold Run_record. unfold bind at 1. unfold eval. cbv zeta.
  destruct (url_Parse X (Tools_URL t)) as [e|u]; [reflexivity|].
  destruct (slice_from_1 (URL_Path u)) as [urlPath|]; [|reflexivity].
  destruct (fetch c); [|reflexivity].
  unfold bind, Fprint, log. rewrite fetchToolsHash_eq.
  destruct (http_Get X (Tools_URL t) w) as [[e|resp] w1]; [reflexivity|].
  destruct (Reader_err (Response_Body resp)); reflexivity.
Qed.

Lemma Run_assemble_cons (c : ToolsMetadataCommand) (t : Tools)
    (rest : list Tools) (w : W) :
  Run_assemble X c (t :: rest) w =
  match Run_record X c t w with
  | (Ok m, w1, t1) =>
      match Run_assemble X c rest w1 with
      | (Ok ms, w2, t2) => (Ok (m :: ms), w2, t1 ++ t2)
      | (Err e, w2, t2) => (Err e, w2, t1 ++ t2)
      | (Panic msg, w2, t2) => (Panic msg, w2, t1 ++ t2)
      end
  | (Err e, w1, t1) => (Err e, w1, t1)
  | (Panic msg, w1, t1) => (Panic msg, w1, t1)
  end.
Proof.
  simpl. unfold bind at 1.
  destruct (Run_record X c t w) as [[[m|e|msg] w1] t1]; try reflexivity.
  unfold bind, ret.
  destruct (Run_assemble X c rest w1) as [[[ms|e|msg] w2] t2]; try reflexivity.
  rewrite List.app_nil_r. reflexivity.
Qed.

(** One turn of the publishing loop, case by case. *)
Lemma Run_publish_cons (c : ToolsMetadataCommand) (env : Environ W)
    (name : string) (data : bytes) (rest : list (string * bytes)) (w : W) :
  Run_publish X c env None ((name, data) :: rest) w =
  let st := Environ_Storage env in
  if local_mode c then
    let say := writing (filepath_Join X (metadataDir c) name) in
    match Storage_Put st name data (int64 (blen data)) w with
    | (Some e, w1) => (Err e, w1, [say; put_event name data (Some e)])
    | (None, w1) =>
        let '(r, w2, t2) := Run_publish X c env None rest w1 in
        (r, w2, say :: put_event name data None :: t2)
    end
  else
    match Storage_URL st name w with
    | (inl e, w1) => (Err e, w1, [EvStorageURL name (inl e)])
    | (inr objectUrl, w1) =>
        let ask := EvStorageURL name (inr objectUrl) in
        match Storage_Put st name data (int64 (blen data)) w1 with
        | (Some e, w2) =>
            (Err e, w2, [ask; writing objectUrl; put_event name data (Some e)])
        | (None, w2) =>
            let '(r, w3, t3) := Run_publish X c env None rest w2 in
            (r, w3, ask :: writing objectUrl :: put_event name data None :: t3)
        end
    end.
Proof.
  cbn [Run_publish]. unfold local_mode. cbv zeta.
  destruct (negb (metadataDir c =? EmptyString)%string).
  - unfold bind, ret, Fprint, log, call, throw. simpl.
    destruct (Storage_Put (Environ_Storage env) name data (int64 (blen data)) w)
      as [[e|] w1]; [reflexivity|].
    destruct (Run_publish X c env None rest w1) as [[r w2] t2]. reflexivity.
  - unfold bind, ret, Fprint, log, call, throw.
    destruct (Storage_URL (Environ_Storage env) name w) as [[e|objectUrl] w1];
      [reflexivity|]. simpl.
    destruct (Storage_Put (Environ_Storage env) name data (int64 (blen data)) w1)
      as [[e|] w2]; [reflexivity|].
    destruct (Run_publish X c env None rest w2) as [[r w3] t3]. reflexivity.
Qed.

(** [Run] once the environment is known, case by case. *)
Lemma Run_main_eq (c : ToolsMetadataCommand) (env : Environ W) (w : W) :
  Run_main X c env w =
  match tools_FindTools X env (major X) (Filter_zero X) w with
  | (inl e, w1) => (Err e, w1, [finding; EvFindTools (major X) (inl e)])
  | (inr toolsList, w1) =>
      let found := EvFindTools (major X) (inr toolsList) in
      match Run_assemble X c toolsList w1 with
      | (Ok metadata, w2, ta) =>
          match tools_MarshalToolsMetadataJSON X metadata w2 with
          | (inl e, w3) =>
              (Err e, w3, finding :: found :: ta ++ [EvMarshal metadata (inl e)])
          | (inr (index, products), w3) =>
              let '(r, w4, tp) :=
                Run_publish X c env None (objects X index products) w3 in
              (r, w4,
               finding :: found :: ta
                 ++ EvMarshal metadata (inr (index, products)) :: tp)
          end
      | (Err e, w2, ta) => (Err e, w2, finding :: found :: ta)
      | (Panic msg, w2, ta) => (Panic msg, w2, finding :: found :: ta)
      end
  end.
Proof.
  unfold Run_main, major, finding. unfold bind at 1. unfold Fprint, log.
  unfold bind at 1. unfold call.
  destruct (tools_FindTools X env _ (Filter_zero X) w) as [[e|toolsList] w1];
    [reflexivity|].
  unfold bind at 1.
  destruct (Run_assemble X c toolsList w1) as [[[metadata|e|msg] w2] ta];
    try reflexivity.
  unfold bind, throw.
  destruct (tools_MarshalToolsMetadataJSON X metadata w2)
    as [[e|[index products]] w3]; [reflexivity|].
  destruct (Run_publish X c env None (objects X index products) w3)
    as [[r w4] tp]. reflexivity.
Qed.

(** [Run], case by case. *)
Lemma Run_eq (c : ToolsMetadataCommand) (w : W) :
  Run X c w =
  match environs_NewFromName X (EnvName c) w with
  | (inl e, w1) => (Err e, w1, [EvNewFromName (EnvName c) (Some e)])
  | (inr env, w1) =>
      let named := EvNewFromName (EnvName c) None in
      if local_mode c then
        let dir := metadataDir (normalized X c) in
        match localstorage_Serve X "127.0.0.1:0" dir w1 with
        | (inl e, w2) => (Err e, w2, [named; EvServe "127.0.0.1:0" dir (Some e)])
        | (inr listener, w2) =>
            let env' := localdirEnv_Environ_iface
                          (mklocaldirEnv env
                             (localstorage_Client X (Listener_Addr listener))) in
            let '(r, w3, tm) := Run_main X (normalized X c) env' w2 in
            (r, Listener_Close X listener w3,
             named :: EvServe "127.0.0.1:0" dir None
               :: tm ++ [EvListenerClose (Listener_Addr listener)])
        end
      else
        let '(r, w2, tm) := Run_main X c env w1 in (r, w2, named :: tm)
  end.
Proof.
  unfold Run, local_mode, normalized. unfold bind at 1. unfold call at 1.
  destruct (environs_NewFromName X (EnvName c) w) as [[e|env] w1];
    [reflexivity|]. cbv zeta.
  destruct (negb (metadataDir c =? EmptyString)%string).
  - unfold bind, call, throw. simpl.
    destruct (localstorage_Serve X "127.0.0.1:0" _ w1) as [[e|listener] w2];
      [reflexivity|].
    unfold defer.
    destruct (Run_main X _ _ w2) as [[r w3] tm]. reflexivity.
  - simpl. destruct (Run_main X c env w1) as [[r w2] tm]. reflexivity.
Qed.

End Anatomy.


(* ===================================================================== *)
(** ** Hashing and assembly *)
(* ===================================================================== *)

Section Assembly.

Variable W : Type.
Variable X : Externals W.

Lemma assembled_more (c : ToolsMetadataCommand) (pre tr post : list Event)
    (t : Tools) (m : ToolsMetadata) :
  assembled X c tr t m -> assembled X c (pre ++ tr ++ post) t m.
Proof.
  unfold assembled. intros [Hpath Hsize]. split; [exact Hpath|].
  destruct (fetch c); [|exact Hsize].
  destruct Hsize as (resp & Hin & Hrest). exists resp. split; [|exact Hrest].
  apply in_or_app. right. apply in_or_app. left. exact Hin.
Qed.

(** Case analysis of one turn of the loop. *)
Ltac record_cases c t w :=
  rewrite (Run_record_eq W X c t w); cbv zeta;
  let e := fresh "e" in
  let u := fresh "u" in
  let Hu := fresh "Hu" in
  let urlPath := fresh "urlPath" in
  let Hp := fresh "Hpath" in
  let Hf := fresh "Hfetch" in
  let resp := fresh "resp" in
  let w1 := fresh "w1" in
  let Hg := fresh "Hget" in
  let Hr := fresh "Hread" in
  destruct (url_Parse X (Tools_URL t)) as [e|u] eqn:Hu;
  [| destruct (slice_from_1 (URL_Path u)) as [urlPath|] eqn:Hp;
     [ destruct (fetch c) eqn:Hf;
       [ destruct (http_Get X (Tools_URL t) w) as [[e|resp] w1] eqn:Hg;
         [| destruct (Reader_err (Response_Body resp)) as [e|] eqn:Hr ] | ] | ] ].

Ltac stage_list :=
  repeat (apply Forall_cons; [simpl; auto|]); try apply Forall_nil.

Lemma Run_record_at_stage (c : ToolsMetadataCommand) (t : Tools) (w : W) :
  at_stage 2 (events (Run_record X c t w)).
Proof. unfold at_stage. record_cases c t w; unfold events; simpl; stage_list. Qed.

Lemma Run_record_disciplined (c : ToolsMetadataCommand) (t : Tools) (w : W) :
  disciplined (outcome (Run_record X c t w)) (events (Run_record X c t w)).
Proof.
  record_cases c t w; unfold outcome, events, disciplined, fault_free; simpl.
  - exists [], (EvURLParse (Tools_URL t) (inl e)), []. repeat split; constructor.
  - exists [EvURLParse (Tools_URL t) (inr u); fetching (Tools_URL t)],
           (EvHttpGet (Tools_URL t) (inl e)), [].
    repeat split; stage_list.
  - exists [EvURLParse (Tools_URL t) (inr u); fetching (Tools_URL t);
            EvHttpGet (Tools_URL t) (inr resp)],
           (EvCopy (int64 (blen (body_bytes resp))) (Some e)), [EvBodyClose].
    repeat split; stage_list.
  - stage_list.
  - stage_list.
  - stage_list.
Qed.

(** A turn of the loop that returns a record. *)
Lemma Run_record_ok (c : ToolsMetadataCommand) (t : Tools) (w : W)
    (m : ToolsMetadata) :
  outcome (Run_record X c t w) = Ok m ->
  assembled X c (events (Run_record X c t w)) t m.
Proof.
  unfold assembled.
  record_cases c t w; unfold outcome, events; simpl; intros H;
    try discriminate; injection H as <-.
  - split.
    + exists u, urlPath. auto.
    + exists resp. simpl. split; [tauto|]. auto.
  - split.
    + exists u, urlPath. auto.
    + simpl. auto.
Qed.

(** A turn of the loop panics exactly when the URL parses to an empty
    path. *)
Lemma Run_record_panic (c : ToolsMetadataCommand) (t : Tools) (w : W) :
  (exists msg, outcome (Run_record X c t w) = Panic msg) <->
  (exists rawurl u,
      In (EvURLParse rawurl (inr u)) (events (Run_record X c t w)) /\
      URL_Path u = EmptyString).
Proof.
  record_cases c t w; unfold outcome, events; simpl;
    (split; [intros [msg H]; try discriminate
            | intros (rawurl & u' & Hin & Hempty)]);
    repeat match goal with
           | H : _ \/ _ |- _ => destruct H
           | H : False |- _ => destruct H
           | H : EvURLParse _ _ = EvURLParse _ _ |- _ =>
               injection H as ? ?; subst
           | H : _ = EvURLParse _ _ |- _ => discriminate H
           end;
    try (unfold fetching in *; discriminate);
    try (rewrite Hempty in Hpath; discriminate).
  - exists (Tools_URL t), u. split; [left; reflexivity|].
    destruct (URL_Path u); [reflexivity|discriminate].
  - eauto.
Qed.

(** *** The loop *)

Lemma Run_assemble_at_stage (c : ToolsMetadataCommand) (ts : list Tools) :
  forall w, at_stage 2 (events (Run_assemble X c ts w)).
Proof.
  induction ts as [|t rest IH]; intros w.
  - constructor.
  - rewrite Run_assemble_cons.
    pose proof (Run_record_at_stage c t w) as H1.
    destruct (Run_record X c t w) as [[[m|e|msg] w1] t1]; try exact H1.
    specialize (IH w1).
    destruct (Run_assemble X c rest w1) as [[[ms|e|msg] w2] t2];
      apply at_stage_app; assumption.
Qed.

Lemma Run_assemble_disciplined (c : ToolsMetadataCommand) (ts : list Tools) :
  forall w,
    disciplined (outcome (Run_assemble X c ts w)) (events (Run_assemble X c ts w)).
Proof.
  induction ts as [|t rest IH]; intros w.
  - constructor.
  - rewrite Run_assemble_cons.
    pose proof (Run_record_disciplined c t w) as H1.
    destruct (Run_record X c t w) as [[[m|e|msg] w1] t1]; try exact H1.
    specialize (IH w1).
    destruct (Run_assemble X c rest w1) as [[[ms|e|msg] w2] t2];
      unfold outcome, events in *; simpl fst in *; simpl snd in *.
    + apply fault_free_app; assumption.
    + apply disciplined_app; assumption.
    + apply fault_free_app; assumption.
Qed.

(** When the loop ends normally there is a record per tarball, in
    order. *)
Lemma Run_assemble_ok (c : ToolsMetadataCommand) (ts : list Tools) :
  forall w metadata,
    outcome (Run_assemble X c ts w) = Ok metadata ->
    Forall2 (assembled X c (events (Run_assemble X c ts w))) ts metadata.
Proof.
  induction ts as [|t rest IH]; intros w metadata.
  - intros H. injection H as <-. constructor.
  - rewrite Run_assemble_cons.
    pose proof (Run_record_ok c t w) as H1.
    destruct (Run_record X c t w) as [[[m|e|msg] w1] t1]; try discriminate.
    specialize (IH w1).
    destruct (Run_assemble X c rest w1) as [[[ms|e|msg] w2] t2];
      try discriminate.
    unfold outcome, events in *; simpl fst in *; simpl snd in *.
    intros H. injection H as <-. constructor.
    + apply (assembled_more c [] t1 t2). apply H1. reflexivity.
    + eapply Forall2_impl; [|apply IH; reflexivity].
      intros a b Hab. rewrite <- (List.app_nil_r t2).
      apply assembled_more. exact Hab.
Qed.

Lemma Run_assemble_nil (c : ToolsMetadataCommand) (ts : list Tools) (w : W) :
  ts = [] ->
  outcome (Run_assemble X c ts w) = Ok [] /\ events (Run_assemble X c ts w) = [].
Proof. intros ->. split; reflexivity. Qed.

(** The loop panics exactly when some URL parsed to an empty path. *)
Lemma Run_assemble_panic (c : ToolsMetadataCommand) (ts : list Tools) :
  forall w,
    (exists msg, outcome (Run_assemble X c ts w) = Panic msg) <->
    (exists rawurl u,
        In (EvURLParse rawurl (inr u)) (events (Run_assemble X c ts w)) /\
        URL_Path u = EmptyString).
Proof.
  induction ts as [|t rest IH]; intros w.
  - simpl. split; [intros [msg H]; discriminate|].
    intros (rawurl & u & [] & _).
  - rewrite Run_assemble_cons.
    pose proof (Run_record_panic c t w) as H1.
    destruct (Run_record X c t w) as [[[m|e|msg] w1] t1].
    2: { unfold outcome, events in *; simpl fst in *; simpl snd in *.
         rewrite <- H1. split; intros [msg H]; discriminate. }
    2: { unfold outcome, events in *; simpl fst in *; simpl snd in *.
         rewrite <- H1. split; intros _; eauto. }
    specialize (IH w1).
    assert (Hno : forall rawurl u,
               In (EvURLParse rawurl (inr u)) t1 -> URL_Path u = EmptyString -> False).
    { intros rawurl u Hin He.
      destruct H1 as [_ H1]. destruct H1 as [msg Hm]; [eauto|discriminate]. }
    assert (Hiff :
      (exists rawurl u, In (EvURLParse rawurl (inr u))
                           (t1 ++ events (Run_assemble X c rest w1)) /\
                        URL_Path u = EmptyString) <->
      (exists rawurl u, In (EvURLParse rawurl (inr u))
                           (events (Run_assemble X c rest w1)) /\
                        URL_Path u = EmptyString)).
    { split; intros (rawurl & u & Hin & He); exists rawurl, u; split; auto.
      - apply in_app_or in Hin. destruct Hin as [Hin|Hin]; [|exact Hin].
        exfalso. eauto.
      - apply in_or_app. right. exact Hin. }
    destruct (Run_assemble X c rest w1) as [[[ms|e|msg] w2] t2];
      unfold outcome, events in *; simpl fst in *; simpl snd in *;
      rewrite Hiff, <- IH; split; intros [msg' H]; try discriminate; eauto.
Qed.

(** *** What the loop does, and in which order *)

Lemma Run_record_in_main (c : ToolsMetadataCommand) (t : Tools) (w : W) :
  Forall (in_main X c) (events (Run_record X c t w)).
Proof.
  record_cases c t w; unfold events; simpl;
    repeat (apply Forall_cons; [simpl; auto|]); apply Forall_nil.
Qed.

Lemma Run_assemble_in_main (c : ToolsMetadataCommand) (ts : list Tools) :
  forall w, Forall (in_main X c) (events (Run_assemble X c ts w)).
Proof.
  induction ts as [|t rest IH]; intros w; [constructor|].
  rewrite Run_assemble_cons.
  pose proof (Run_record_in_main c t w) as H1.
  destruct (Run_record X c t w) as [[[m|e|msg] w1] t1]; try exact H1.
  specialize (IH w1).
  destruct (Run_assemble X c rest w1) as [[[ms|e|msg] w2] t2];
    apply Forall_app; split; assumption.
Qed.

(** One turn parses the URL of its tarball, once, and requests it at
    most once; a turn that returns a record has requested it if and only
    if fetching is enabled. *)
Lemma Run_record_order (c : ToolsMetadataCommand) (t : Tools) (w : W) :
  parses (events (Run_record X c t w)) = [Tools_URL t] /\
  (gets (events (Run_record X c t w)) = [] \/
   fetch c = true /\ gets (events (Run_record X c t w)) = [Tools_URL t]) /\
  (forall m, outcome (Run_record X c t w) = Ok m ->
             gets (events (Run_record X c t w))
             = if fetch c then [Tools_URL t] else []).
Proof.
  record_cases c t w; unfold outcome, events; simpl;
    (split; [reflexivity|]); (split; [auto|]); intros m H;
    try discriminate H; reflexivity.
Qed.

Lemma Run_assemble_order (c : ToolsMetadataCommand) (ts : list Tools) :
  forall w,
    exists k j,
      parses (events (Run_assemble X c ts w))
        = List.map Tools_URL (List.firstn k ts) /\
      gets (events (Run_assemble X c ts w))
        = List.map Tools_URL (List.firstn j ts) /\
      (if fetch c then j <= k <= j + 1 else j = 0)%nat /\
      (forall md, outcome (Run_assemble X c ts w) = Ok md ->
                  k = List.length ts /\ (fetch c = true -> j = List.length ts)).
Proof.
  induction ts as [|t rest IH]; intros w.
  { exists 0%nat, 0%nat. simpl. repeat split; auto.
    destruct (fetch c); lia. }
  rewrite Run_assemble_cons.
  destruct (Run_record_order c t w) as (Hp & Hg & Hok).
  destruct (Run_record X c t w) as [[[m|e|msg] w1] t1];
    unfold outcome, events in Hp, Hg, Hok; simpl fst in *; simpl snd in *.
  - specialize (Hok m eq_refl).
    destruct (IH w1) as (k & j & IHp & IHg & IHjk & IHok).
    exists (S k), (if fetch c then S j else 0%nat).
    destruct (Run_assemble X c rest w1) as [[r2 w2] t2].
    unfold outcome, events in IHp, IHg, IHok; simpl fst in *; simpl snd in *.
    assert (Hparses : parses (t1 ++ t2)
                      = List.map Tools_URL (List.firstn (S k) (t :: rest))).
    { unfold parses in *. rewrite List.flat_map_app, Hp, IHp. reflexivity. }
    assert (Hgets : gets (t1 ++ t2)
                    = List.map Tools_URL
                        (List.firstn (if fetch c then S j else 0%nat) (t :: rest))).
    { unfold gets in *. rewrite List.flat_map_app, Hok, IHg.
      destruct (fetch c); [reflexivity|]. subst j. reflexivity. }
    assert (Hjk : (if fetch c
                   then (if fetch c then S j else 0) <= S k
                        <= (if fetch c then S j else 0) + 1
                   else (if fetch c then S j else 0) = 0)%nat).
    { destruct (fetch c); lia. }
    destruct r2 as [ms|e|msg]; unfold outcome, events; simpl fst; simpl snd;
      (split; [exact Hparses|]); (split; [exact Hgets|]);
      (split; [exact Hjk|]); intros md Hmd; try discriminate Hmd.
    destruct (IHok ms eq_refl) as [-> Hj]. split; [reflexivity|].
    intros Hf. rewrite Hf. rewrite (Hj Hf). reflexivity.
  - exists 1%nat. unfold outcome, events; simpl fst; simpl snd.
    destruct Hg as [Hg|[Hf Hg]].
    + exists 0%nat. rewrite Hp, Hg.
      repeat split; auto; try discriminate. destruct (fetch c); lia.
    + exists 1%nat. rewrite Hp, Hg, Hf.
      repeat split; auto; try discriminate; lia.
  - exists 1%nat. unfold outcome, events; simpl fst; simpl snd.
    destruct Hg as [Hg|[Hf Hg]].
    + exists 0%nat. rewrite Hp, Hg.
      repeat split; auto; try discriminate. destruct (fetch c); lia.
    + exists 1%nat. rewrite Hp, Hg, Hf.
      repeat split; auto; try discriminate; lia.
Qed.

(** The loop prints one line per request, before it. *)
Lemma Run_record_printed (c : ToolsMetadataCommand) (t : Tools) (w : W) :
  printed (events (Run_record X c t w))
  = printed (List.map fetching (gets (events (Run_record X c t w)))).
Proof. record_cases c t w; reflexivity. Qed.

Lemma Run_assemble_printed (c : ToolsMetadataCommand) (ts : list Tools) :
  forall w,
    printed (events (Run_assemble X c ts w))
    = printed (List.map fetching (gets (events (Run_assemble X c ts w)))).
Proof.
  induction ts as [|t rest IH]; intros w; [reflexivity|].
  rewrite Run_assemble_cons.
  pose proof (Run_record_printed c t w) as H1.
  destruct (Run_record X c t w) as [[[m|e|msg] w1] t1]; try exact H1.
  specialize (IH w1).
  destruct (Run_assemble X c rest w1) as [[[ms|e|msg] w2] t2];
    unfold events in *; simpl snd in *; unfold gets in *;
    rewrite List.flat_map_app, List.map_app, !printed_app, H1, IH; reflexivity.
Qed.

(** Every body obtained is closed. *)
Lemma Run_record_closes (c : ToolsMetadataCommand) (t : Tools) (w : W) :
  List.length (responses (events (Run_record X c t w)))
  = List.length (closes (events (Run_record X c t w))).
Proof. record_cases c t w; reflexivity. Qed.

Lemma Run_assemble_closes (c : ToolsMetadataCommand) (ts : list Tools) :
  forall w,
    List.length (responses (events (Run_assemble X c ts w)))
    = List.length (closes (events (Run_assemble X c ts w))).
Proof.
  induction ts as [|t rest IH]; intros w; [reflexivity|].
  rewrite Run_assemble_cons.
  pose proof (Run_record_closes c t w) as H1.
  destruct (Run_record X c t w) as [[[m|e|msg] w1] t1]; try exact H1.
  specialize (IH w1).
  destruct (Run_assemble X c rest w1) as [[[ms|e|msg] w2] t2];
    unfold events in *; simpl snd in *; unfold responses, closes in *;
    rewrite !List.flat_map_app, !List.length_app; lia.
Qed.

End Assembly.


(* ===================================================================== *)
(** ** Publishing *)
(* ===================================================================== *)

Lemma resolved_then_put_app (t1 t2 : list Event) :
  resolved_then_put t1 -> resolved_then_put t2 -> resolved_then_put (t1 ++ t2).
Proof.
  induction t1 as [|ev t1 IH]; simpl; intros H1 H2; [exact H2|].
  destruct ev; auto.
  destruct res as [e|objectUrl]; auto.
  destruct H1 as [(data & err & rest' & ->) H1]. split; [|auto].
  exists data, err, (rest' ++ t2). reflexivity.
Qed.

Lemma resolved_then_put_at_stage (k : nat) (tr : list Event) :
  at_stage k tr -> k <> 4%nat -> resolved_then_put tr.
Proof.
  intros Hst Hk. induction Hst as [|ev tr Hev _ IH]; simpl; [exact I|].
  destruct ev; try exact IH.
  simpl in Hev. destruct Hev as [Hev|Hev]; [|discriminate].
  injection Hev as <-. congruence.
Qed.

Section Publishing.

Variable W : Type.
Variable X : Externals W.
Variable c : ToolsMetadataCommand.
Variable env : Environ W.

Ltac publish_cases name data w :=
  rewrite (Run_publish_cons W X c env name data _ w); cbv zeta;
  let e := fresh "e" in
  let w1 := fresh "w1" in
  let w2 := fresh "w2" in
  let objectUrl := fresh "objectUrl" in
  let Hl := fresh "Hlocal" in
  destruct (local_mode c) eqn:Hl;
  [ destruct (Storage_Put (Environ_Storage env) name data (int64 (blen data)) w)
      as [[e|] w1]
  | destruct (Storage_URL (Environ_Storage env) name w) as [[e|objectUrl] w1];
    [| destruct (Storage_Put (Environ_Storage env) name data
                             (int64 (blen data)) w1) as [[e|] w2] ] ].

Lemma Run_publish_at_stage (objs : list (string * bytes)) :
  forall w, at_stage 4 (events (Run_publish X c env None objs w)).
Proof.
  induction objs as [|[name data] rest IH]; intros w; [constructor|].
  publish_cases name data w;
    try match goal with
        | |- context [Run_publish X c env None rest ?w'] =>
            specialize (IH w');
            destruct (Run_publish X c env None rest w') as [[r w3] t3]
        end;
    observe; unfold at_stage;
    repeat (apply Forall_cons; [simpl; auto|]); auto.
Qed.

Lemma Run_publish_disciplined (objs : list (string * bytes)) :
  forall w,
    disciplined (outcome (Run_publish X c env None objs w))
                (events (Run_publish X c env None objs w)).
Proof.
  induction objs as [|[name data] rest IH]; intros w; [constructor|].
  publish_cases name data w;
    try match goal with
        | |- context [Run_publish X c env None rest ?w'] =>
            specialize (IH w');
            destruct (Run_publish X c env None rest w') as [[r w3] t3]
        end;
    observe.
  - exists [writing (filepath_Join X (metadataDir c) name)],
           (put_event name data (Some e)), [].
    repeat split; repeat constructor.
  - apply (disciplined_app r [_; _] t3); [repeat constructor | exact IH].
  - exists [], (EvStorageURL name (inl e)), []. repeat split; constructor.
  - exists [EvStorageURL name (inr objectUrl); writing objectUrl],
           (put_event name data (Some e)), [].
    repeat split; repeat constructor.
  - apply (disciplined_app r [_; _; _] t3); [repeat constructor | exact IH].
Qed.

(** The loop never panics; when it returns nil every object was put,
    once and in order; when it returns an error the objects before the
    one that failed were put, and that one was either not put at all
    (its address did not resolve) or put once, with the error
    returned. *)
Lemma Run_publish_written (objs : list (string * bytes)) :
  forall w,
    match outcome (Run_publish X c env None objs w) with
    | Ok _ =>
        attempts (events (Run_publish X c env None objs w)) = List.map stored objs /\
        written (events (Run_publish X c env None objs w)) = objs
    | Err e =>
        exists done o rest,
          objs = done ++ o :: rest /\
          written (events (Run_publish X c env None objs w)) = done /\
          (attempts (events (Run_publish X c env None objs w)) = List.map stored done \/
           attempts (events (Run_publish X c env None objs w))
             = List.map stored done ++ [(o, Some e)])
    | Panic _ => False
    end.
Proof.
  induction objs as [|[name data] rest IH]; intros w; [simpl; auto|].
  publish_cases name data w;
    try match goal with
        | |- context [Run_publish X c env None rest ?w'] =>
            specialize (IH w');
            destruct (Run_publish X c env None rest w') as [[r w3] t3]
        end;
    observe; simpl attempts; simpl written.
  - exists [], (name, data), rest. simpl. auto.
  - destruct r as [[]|e|msg]; [| |exact IH].
    + destruct IH as [-> ->]. auto.
    + destruct IH as (done & o & rest' & -> & -> & Hat).
      exists ((name, data) :: done), o, rest'. simpl.
      split; [reflexivity|]. split; [reflexivity|].
      destruct Hat as [-> | ->]; auto.
  - exists [], (name, data), rest. simpl. auto.
  - exists [], (name, data), rest. simpl. auto.
  - destruct r as [[]|e|msg]; [| |exact IH].
    + destruct IH as [-> ->]. auto.
    + destruct IH as (done & o & rest' & -> & -> & Hat).
      exists ((name, data) :: done), o, rest'. simpl.
      split; [reflexivity|]. split; [reflexivity|].
      destruct Hat as [-> | ->]; auto.
Qed.

(** In local-directory mode no address is resolved, and a loop that
    returns nil has reported, for each object, the directory joined with
    the object's path. *)
Lemma Run_publish_local (objs : list (string * bytes)) :
  local_mode c = true ->
  forall w,
    (forall name res,
        ~ In (EvStorageURL name res) (events (Run_publish X c env None objs w))) /\
    (forall u, outcome (Run_publish X c env None objs w) = Ok u ->
       events (Run_publish X c env None objs w) =
       List.flat_map
         (fun o => [writing (filepath_Join X (metadataDir c) (fst o));
                    put_event (fst o) (snd o) None]) objs).
Proof.
  intros Hmode.
  induction objs as [|[name data] rest IH]; intros w.
  { simpl. split; [intros name res []|reflexivity]. }
  publish_cases name data w; try discriminate;
    try match goal with
        | |- context [Run_publish X c env None rest ?w'] =>
            specialize (IH w');
            destruct (Run_publish X c env None rest w') as [[r w3] t3]
        end;
    observe.
  - split; [|discriminate].
    intros n res [H|[H|[]]]; unfold writing, put_event in H; discriminate.
  - destruct IH as [IH1 IH2]. split.
    + intros n res [H|[H|H]];
        [unfold writing in H; discriminate
        |unfold put_event in H; discriminate
        |exact (IH1 n res H)].
    + intros u Hu. simpl. rewrite (IH2 u Hu). reflexivity.
Qed.

Lemma Run_publish_resolved (objs : list (string * bytes)) :
  forall w, resolved_then_put (events (Run_publish X c env None objs w)).
Proof.
  induction objs as [|[name data] rest IH]; intros w; [exact I|].
  publish_cases name data w;
    try match goal with
        | |- context [Run_publish X c env None rest ?w'] =>
            specialize (IH w');
            destruct (Run_publish X c env None rest w') as [[r w3] t3]
        end;
    observe; simpl; auto.
  - split; [|exact I]. eauto.
  - split; [|exact IH]. eauto.
Qed.

(** The loop prints, resolves addresses when there is no local
    directory, and puts the objects it is given with the length of their
    data; it does nothing else. *)
Lemma Run_publish_alphabet (objs : list (string * bytes)) :
  forall w,
    Forall (fun ev =>
              match ev with
              | EvPrint _ => True
              | EvStorageURL name _ =>
                  local_mode c = false /\ In name (List.map fst objs)
              | EvStoragePut name data length _ =>
                  length = int64 (blen data) /\ In name (List.map fst objs)
              | _ => False
              end)
           (events (Run_publish X c env None objs w)).
Proof.
  induction objs as [|[name data] rest IH]; intros w; [constructor|].
  publish_cases name data w;
    try match goal with
        | |- context [Run_publish X c env None rest ?w'] =>
            specialize (IH w');
            destruct (Run_publish X c env None rest w') as [[r w3] t3]
        end;
    observe;
    repeat (apply Forall_cons; [simpl; auto|]); try apply Forall_nil;
    (eapply Forall_impl; [|exact IH]);
    intros ev; destruct ev; simpl; tauto.
Qed.

(** The loop prints one line per place it writes to. *)
Lemma Run_publish_printed (objs : list (string * bytes)) :
  forall w,
    printed (events (Run_publish X c env None objs w))
    = printed (List.map writing
                 (announced X c (events (Run_publish X c env None objs w)))).
Proof.
  unfold announced.
  induction objs as [|[name data] rest IH]; intros w.
  { simpl. destruct (local_mode c); reflexivity. }
  publish_cases name data w;
    try match goal with
        | |- context [Run_publish X c env None rest ?w'] =>
            specialize (IH w');
            destruct (Run_publish X c env None rest w') as [[r w3] t3]
        end;
    observe; try reflexivity;
    unfold put_names, resolved in *; simpl; rewrite IH; reflexivity.
Qed.

End Publishing.

(* ===================================================================== *)
(** ** From discovery to publishing *)
(* ===================================================================== *)

Section Main.

Variable W : Type.
Variable X : Externals W.
Variable c : ToolsMetadataCommand.
Variable env : Environ W.

(** Case analysis of [Run_main]: discovery failed; the loop returned an
    error; the loop panicked; marshalling failed; publishing ran. *)
Ltac main_cases w :=
  rewrite (Run_main_eq W X c env w); cbv zeta;
  let e := fresh "e" in
  let ts := fresh "ts" in
  let w1 := fresh "w1" in
  let w2 := fresh "w2" in
  let w3 := fresh "w3" in
  let w4 := fresh "w4" in
  let md := fresh "md" in
  let msg := fresh "msg" in
  let ta := fresh "ta" in
  let tp := fresh "tp" in
  let r := fresh "r" in
  let index := fresh "index" in
  let products := fresh "products" in
  let Hst := fresh "Hstage" in
  let Hd := fresh "Hdisc" in
  let Hok := fresh "Hok" in
  let Hpn := fresh "Hpanic" in
  let Hnl := fresh "Hnil" in
  let Hpst := fresh "Hpstage" in
  let Hpd := fresh "Hpdisc" in
  let Hpw := fresh "Hpwritten" in
  let Hpl := fresh "Hplocal" in
  let Hpr := fresh "Hpresolved" in
  destruct (tools_FindTools X env (major X) (Filter_zero X) w) as [[e|ts] w1];
  [| pose proof (Run_assemble_at_stage W X c ts w1) as Hst;
     pose proof (Run_assemble_disciplined W X c ts w1) as Hd;
     pose proof (Run_assemble_ok W X c ts w1) as Hok;
     pose proof (Run_assemble_panic W X c ts w1) as Hpn;
     pose proof (Run_assemble_nil W X c ts w1) as Hnl;
     destruct (Run_assemble X c ts w1) as [[[md|e|msg] w2] ta];
     [ destruct (tools_MarshalToolsMetadataJSON X md w2)
         as [[e|[index products]] w3];
       [| pose proof (Run_publish_at_stage W X c env (objects X index products) w3) as Hpst;
          pose proof (Run_publish_disciplined W X c env (objects X index products) w3) as Hpd;
          pose proof (Run_publish_written W X c env (objects X index products) w3) as Hpw;
          pose proof (Run_publish_local W X c env (objects X index products)) as Hpl;
          specialize (fun H => Hpl H w3);
          pose proof (Run_publish_resolved W X c env (objects X index products) w3) as Hpr;
          destruct (Run_publish X c env None (objects X index products) w3)
            as [[r w4] tp] ]
     | | ] ];
  observe.

Lemma at_stage_le (k hi : nat) (tr : list Event) :
  at_stage k tr -> (k <= hi)%nat ->
  Forall (fun ev => forall n, stage ev = Some n -> (n <= hi)%nat) tr.
Proof.
  intros H Hle. eapply Forall_impl; [|exact H]. simpl.
  intros ev [Hev|Hev] n Hn; rewrite Hev in Hn; [|discriminate].
  injection Hn as <-. exact Hle.
Qed.

(** The stages of a run follow each other. *)
Lemma Run_main_staged (w : W) : staged 1 (events (Run_main X c env w)).
Proof.
  main_cases w; simpl; (split; [lia|]).
  - exact I.
  - apply (staged_app 2); [lia | | | ].
    + eapply staged_weaken; [|apply at_stage_staged; exact Hstage]. lia.
    + eapply at_stage_le; [exact Hstage|lia].
    + simpl. auto.
  - apply (staged_app 2); [lia | | | ].
    + eapply staged_weaken; [|apply at_stage_staged; exact Hstage]. lia.
    + eapply at_stage_le; [exact Hstage|lia].
    + simpl. split; [lia|].
      eapply staged_weaken; [|apply at_stage_staged; exact Hpstage]. lia.
  - eapply staged_weaken; [|apply at_stage_staged; exact Hstage]. lia.
  - eapply staged_weaken; [|apply at_stage_staged; exact Hstage]. lia.
Qed.

(** [Run_main] stops at publishing. *)
Lemma Run_main_bounded (w : W) :
  Forall (fun ev => forall n, stage ev = Some n -> (n <= 4)%nat)
         (events (Run_main X c env w)).
Proof.
  main_cases w;
    repeat match goal with
           | |- Forall _ (_ :: _) => apply Forall_cons
           | |- Forall _ (_ ++ _) => apply Forall_app; split
           | |- Forall _ [] => apply Forall_nil
           | H : at_stage ?k ?t |- Forall _ ?t => apply (at_stage_le k 4 t H); lia
           | |- forall n, stage _ = Some n -> _ =>
               simpl; intros n Hn; try discriminate; injection Hn as <-; lia
           end.
Qed.

Lemma Run_main_disciplined (w : W) :
  disciplined (outcome (Run_main X c env w)) (events (Run_main X c env w)).
Proof.
  main_cases w.
  - exists [finding], (EvFindTools (major X) (inl e)), [].
    repeat split; repeat constructor.
  - exists (finding :: EvFindTools (major X) (inr ts) :: ta),
           (EvMarshal md (inl e)), [].
    repeat split; [|constructor].
    apply (fault_free_app [_; _] ta); [repeat constructor|exact Hdisc].
  - apply (disciplined_app r [_; _] (ta ++ _ :: tp)); [repeat constructor|].
    apply disciplined_app; [exact Hdisc|].
    apply (disciplined_app r [_] tp); [repeat constructor|exact Hpdisc].
  - apply (disciplined_app (Err e) [_; _] ta); [repeat constructor|exact Hdisc].
  - apply (fault_free_app [_; _] ta); [repeat constructor|exact Hdisc].
Qed.

(** The discovery and marshalling events of a run are the call that
    found the tarballs and the call that marshalled their records. *)
Lemma Run_main_records (w : W) (mj : Z) (ts : list Tools)
    (md : list ToolsMetadata) (res : error + (bytes * bytes)) :
  In (EvFindTools mj (inr ts)) (events (Run_main X c env w)) ->
  In (EvMarshal md res) (events (Run_main X c env w)) ->
  Forall2 (assembled X c (events (Run_main X c env w))) ts md.
Proof.
  main_cases w; intros Hf Hm; split_in; try stage_clash; try discriminate.
  - injection Hf as _ <-. injection Hm as <- _.
    eapply Forall2_impl; [|apply Hok; reflexivity].
    intros t m H. apply (assembled_more W X c [_; _] ta [_]). exact H.
  - injection Hf as _ <-. injection Hm as <- _.
    eapply Forall2_impl; [|apply Hok; reflexivity].
    intros t m H. apply (assembled_more W X c [_; _] ta (_ :: tp)). exact H.
Qed.

(** A run panics exactly when some URL parsed to an empty path. *)
Lemma Run_main_panic (w : W) :
  (exists msg, outcome (Run_main X c env w) = Panic msg) <->
  (exists rawurl u,
      In (EvURLParse rawurl (inr u)) (events (Run_main X c env w)) /\
      URL_Path u = EmptyString).
Proof.
  main_cases w;
    (split; [intros [msg' Hm] | intros (rawurl & u & Hin & Hempty)]);
    try discriminate; split_in; try stage_clash; try discriminate;
    try (destruct Hpanic as [_ Hpanic];
         destruct Hpanic as [msg' Hm]; [eauto|discriminate]).
  - subst r. destruct Hpwritten.
  - destruct Hpanic as [Hpanic _].
    destruct Hpanic as (rawurl & u & Hin & Hempty); [eauto|].
    exists rawurl, u. split; [|exact Hempty]. right. right. exact Hin.
  - eauto.
Qed.

(** What a run has stored when it ends. *)
Lemma Run_main_written (w : W) :
  match outcome (Run_main X c env w) with
  | Ok _ =>
      exists md index products,
        In (EvMarshal md (inr (index, products))) (events (Run_main X c env w)) /\
        attempts (events (Run_main X c env w))
          = List.map stored (objects X index products) /\
        written (events (Run_main X c env w)) = objects X index products
  | Err e =>
      attempts (events (Run_main X c env w)) = [] \/
      exists md index products done o rest,
        In (EvMarshal md (inr (index, products))) (events (Run_main X c env w)) /\
        objects X index products = done ++ o :: rest /\
        written (events (Run_main X c env w)) = done /\
        (attempts (events (Run_main X c env w)) = List.map stored done \/
         attempts (events (Run_main X c env w))
           = List.map stored done ++ [(o, Some e)])
  | Panic _ => attempts (events (Run_main X c env w)) = []
  end.
Proof.
  main_cases w.
  - left. reflexivity.
  - left. simpl. rewrite attempts_app.
    rewrite (attempts_at_stage 2 ta Hstage) by lia. reflexivity.
  - assert (Ha : attempts (finding :: EvFindTools (major X) (inr ts) :: ta
                    ++ EvMarshal md (inr (index, products)) :: tp) = attempts tp).
    { simpl. rewrite attempts_app.
      rewrite (attempts_at_stage 2 ta Hstage) by lia. reflexivity. }
    assert (Hw : written (finding :: EvFindTools (major X) (inr ts) :: ta
                    ++ EvMarshal md (inr (index, products)) :: tp) = written tp).
    { simpl. rewrite written_app.
      rewrite (written_at_stage 2 ta Hstage) by lia. reflexivity. }
    assert (Hin : In (EvMarshal md (inr (index, products)))
                     (finding :: EvFindTools (major X) (inr ts) :: ta
                        ++ EvMarshal md (inr (index, products)) :: tp)).
    { right. right. apply in_or_app. right. left. reflexivity. }
    rewrite Ha, Hw. destruct r as [u|e|msg].
    + exists md, index, products. tauto.
    + right. destruct Hpwritten as (done & o & rest & H1 & H2 & H3).
      exists md, index, products, done, o, rest. tauto.
    + destruct Hpwritten.
  - left. simpl. apply (attempts_at_stage 2 ta Hstage). lia.
  - simpl. apply (attempts_at_stage 2 ta Hstage). lia.
Qed.

(** A run that discovers no tarball goes on to marshal the empty list
    of records and to publish. *)
Lemma Run_main_empty (w : W) (mj : Z) :
  In (EvFindTools mj (inr [])) (events (Run_main X c env w)) ->
  exists res tp,
    events (Run_main X c env w)
      = finding :: EvFindTools mj (inr []) :: EvMarshal [] res :: tp /\
    at_stage 4 tp.
Proof.
  main_cases w; intros Hf; split_in; try stage_clash; try discriminate;
    injection Hf as Hmj Hts; subst mj ts;
    destruct (Hnil eq_refl) as [Hmd Hta]; try discriminate;
    injection Hmd as ->; subst ta; simpl.
  - exists (inl e), []. split; [reflexivity|constructor].
  - exists (inr (index, products)), tp. split; [reflexivity|exact Hpstage].
Qed.

(** A local-directory run resolves no address; when it returns nil its
    log ends with a report and a [Put] for each object. *)
Lemma Run_main_local (w : W) :
  local_mode c = true ->
  (forall name res, ~ In (EvStorageURL name res) (events (Run_main X c env w))) /\
  (forall u, outcome (Run_main X c env w) = Ok u ->
     exists pre md index products,
       events (Run_main X c env w) =
       pre ++ EvMarshal md (inr (index, products))
           :: List.flat_map
                (fun o => [writing (filepath_Join X (metadataDir c) (fst o));
                           put_event (fst o) (snd o) None])
                (objects X index products)).
Proof.
  intros Hmode.
  main_cases w;
    (split; [intros name res Hin; split_in; try stage_clash; try discriminate
            | intros u Hu; try discriminate]).
  - destruct (Hplocal Hmode) as [Hno _]. exact (Hno name res Hin).
  - destruct (Hplocal Hmode) as [_ Hev]. rewrite (Hev u Hu).
    exists (finding :: EvFindTools (major X) (inr ts) :: ta), md, index, products.
    reflexivity.
Qed.

Lemma Run_main_resolved (w : W) :
  resolved_then_put (events (Run_main X c env w)).
Proof.
  main_cases w; simpl;
    try (apply (resolved_then_put_at_stage 2); [assumption|lia]); auto.
  - apply resolved_then_put_app; [|exact I].
    apply (resolved_then_put_at_stage 2); [assumption|lia].
  - apply resolved_then_put_app; [|simpl; assumption].
    apply (resolved_then_put_at_stage 2); [assumption|lia].
Qed.

(** *** More on [Run_main] *)

(** Case analysis of [Run_main], with what is to be known of the loop
    ([fa]) and of the publishing ([fp]) stated before their results are
    named. *)
Ltac main_split fa fp w :=
  rewrite (Run_main_eq W X c env w); cbv zeta;
  let e := fresh "e" in
  let ts := fresh "ts" in
  let w1 := fresh "w1" in
  let w2 := fresh "w2" in
  let w3 := fresh "w3" in
  let w4 := fresh "w4" in
  let md := fresh "md" in
  let msg := fresh "msg" in
  let ra := fresh "ra" in
  let ta := fresh "ta" in
  let tp := fresh "tp" in
  let r := fresh "r" in
  let index := fresh "index" in
  let products := fresh "products" in
  let Hst := fresh "Hstage" in
  let Hpst := fresh "Hpstage" in
  let Ha := fresh "Hasm" in
  destruct (tools_FindTools X env (major X) (Filter_zero X) w) as [[e|ts] w1];
  [| pose proof (Run_assemble_at_stage W X c ts w1) as Hst;
     fa ts w1;
     destruct (Run_assemble X c ts w1) as [[ra w2] ta] eqn:Ha;
     destruct ra as [md|e|msg];
     [ destruct (tools_MarshalToolsMetadataJSON X md w2)
         as [[e|[index products]] w3];
       [| pose proof (Run_publish_at_stage W X c env (objects X index products) w3)
            as Hpst;
          fp index products w3;
          destruct (Run_publish X c env None (objects X index products) w3)
            as [[r w4] tp] ]
     | | ] ];
  observe.

Lemma Run_main_in_main (w : W) :
  Forall (in_main X c) (events (Run_main X c env w)).
Proof.
  main_split
    ltac:(fun ts w1 => pose proof (Run_assemble_in_main W X c ts w1) as Hain)
    ltac:(fun index products w3 =>
            pose proof (Run_publish_alphabet W X c env
                          (objects X index products) w3) as Hpin)
    w;
    repeat match goal with
           | |- Forall _ (_ :: _) => apply Forall_cons; [simpl; auto|]
           | |- Forall _ (_ ++ _) => apply Forall_app; split
           | |- Forall _ [] => apply Forall_nil
           end;
    try assumption.
  eapply Forall_impl; [|exact Hpin].
  intros ev; destruct ev; simpl; try tauto;
    intros [H1 [H2|[H2|[]]]]; (split; [exact H1|]);
    [left|right|left|right]; symmetry; exact H2.
Qed.

(** [Run_main] discovers once, for the major version of
    [version.Current]. *)
Lemma Run_main_discoveries (w : W) :
  discoveries (events (Run_main X c env w)) = [major X].
Proof.
  main_split ltac:(fun ts w1 => idtac) ltac:(fun index products w3 => idtac) w;
    try reflexivity;
    (assert (Ha : discoveries ta = [])
       by (apply (discoveries_at_stage 2); [assumption|lia]));
    try (assert (Hp : discoveries tp = [])
           by (apply (discoveries_at_stage 4); [assumption|lia]));
    unfold discoveries in *; simpl; rewrite ?List.flat_map_app; simpl;
    rewrite ?Ha, ?Hp; reflexivity.
Qed.

(** The assembly part of the log of [Run_main] is that of the loop over
    the tarballs found, when some were; what is marshalled is what the
    loop returned. *)
Lemma Run_main_assembly (w : W) :
  (assembly_of (events (Run_main X c env w)) = [] /\
   forall mj ts, ~ In (EvFindTools mj (inr ts)) (events (Run_main X c env w))) \/
  exists ts w1,
    (forall mj ts', In (EvFindTools mj (inr ts')) (events (Run_main X c env w)) ->
                    ts' = ts) /\
    assembly_of (events (Run_main X c env w))
      = assembly_of (events (Run_assemble X c ts w1)) /\
    (forall md res, In (EvMarshal md res) (events (Run_main X c env w)) ->
                    outcome (Run_assemble X c ts w1) = Ok md).
Proof.
  main_split ltac:(fun ts w1 => idtac) ltac:(fun index products w3 => idtac) w.
  - left. split; [reflexivity|].
    intros mj ts Hin. split_in; discriminate.
  - right. exists ts, w1. rewrite Hasm. observe. split; [|split].
    + intros mj ts' Hin. split_in; try stage_clash; try discriminate.
      injection Hin as _ <-. reflexivity.
    + change (assembly_of (ta ++ [EvMarshal md (inl e)]) = assembly_of ta).
      rewrite assembly_of_app. simpl. apply List.app_nil_r.
    + intros md' res Hin. split_in; try stage_clash; try discriminate.
      injection Hin as <- _. reflexivity.
  - right. exists ts, w1. rewrite Hasm. observe. split; [|split].
    + intros mj ts' Hin. split_in; try stage_clash; try discriminate.
      injection Hin as _ <-. reflexivity.
    + change (assembly_of (ta ++ EvMarshal md (inr (index, products)) :: tp)
              = assembly_of ta).
      rewrite assembly_of_app.
      change (assembly_of (EvMarshal md (inr (index, products)) :: tp))
        with (assembly_of tp).
      rewrite (assembly_of_at_stage 4 tp Hpstage) by lia. apply List.app_nil_r.
    + intros md' res Hin. split_in; try stage_clash; try discriminate.
      injection Hin as <- _. reflexivity.
  - right. exists ts, w1. rewrite Hasm. observe. split; [|split].
    + intros mj ts' Hin. split_in; try stage_clash; try discriminate.
      injection Hin as _ <-. reflexivity.
    + reflexivity.
    + intros md' res Hin. split_in; try stage_clash; discriminate.
  - right. exists ts, w1. rewrite Hasm. observe. split; [|split].
    + intros mj ts' Hin. split_in; try stage_clash; try discriminate.
      injection Hin as _ <-. reflexivity.
    + reflexivity.
    + intros md' res Hin. split_in; try stage_clash; discriminate.
Qed.

(** What [Run_main] prints. *)
Lemma Run_main_printed (w : W) :
  printed (events (Run_main X c env w))
  = printed (progress X c (events (Run_main X c env w))).
Proof.
  unfold progress. rewrite Run_main_discoveries.
  main_split
    ltac:(fun ts w1 => pose proof (Run_assemble_printed W X c ts w1) as Hap)
    ltac:(fun index products w3 =>
            pose proof (Run_publish_printed W X c env
                          (objects X index products) w3) as Hpp)
    w.
  - unfold announced. destruct (local_mode c); reflexivity.
  - assert (Hg : gets (finding :: EvFindTools (major X) (inr ts)
                         :: ta ++ [EvMarshal md (inl e)]) = gets ta).
    { unfold gets. simpl. rewrite List.flat_map_app. simpl.
      apply List.app_nil_r. }
    assert (Ha : announced X c (finding :: EvFindTools (major X) (inr ts)
                                  :: ta ++ [EvMarshal md (inl e)]) = []).
    { unfold announced, put_names, resolved. simpl.
      rewrite !List.flat_map_app. simpl. rewrite !List.app_nil_r.
      fold (put_names ta). fold (resolved ta).
      rewrite (put_names_at_stage2 ta), (resolved_at_stage2 ta) by assumption.
      destruct (local_mode c); reflexivity. }
    rewrite Hg, Ha. simpl. rewrite !printed_app, Hap. simpl.
    rewrite !List.app_nil_r. reflexivity.
  - assert (Hg : gets (finding :: EvFindTools (major X) (inr ts)
                         :: ta ++ EvMarshal md (inr (index, products)) :: tp)
                 = gets ta).
    { unfold gets. simpl. rewrite List.flat_map_app. simpl.
      fold (gets tp). rewrite (gets_at_stage4 tp) by assumption.
      apply List.app_nil_r. }
    assert (Ha : announced X c (finding :: EvFindTools (major X) (inr ts)
                                  :: ta ++ EvMarshal md (inr (index, products)) :: tp)
                 = announced X c tp).
    { unfold announced, put_names, resolved. simpl.
      rewrite !List.flat_map_app. simpl.
      fold (put_names ta). fold (resolved ta).
      rewrite (put_names_at_stage2 ta), (resolved_at_stage2 ta) by assumption.
      reflexivity. }
    rewrite Hg, Ha. simpl. rewrite !printed_app, Hap. simpl.
    rewrite Hpp. reflexivity.
  - assert (Ha : announced X c (finding :: EvFindTools (major X) (inr ts) :: ta) = []).
    { unfold announced, put_names, resolved. simpl.
      fold (put_names ta). fold (resolved ta).
      rewrite (put_names_at_stage2 ta), (resolved_at_stage2 ta) by assumption.
      destruct (local_mode c); reflexivity. }
    rewrite Ha. simpl. rewrite !printed_app, Hap. simpl.
    rewrite !List.app_nil_r. reflexivity.
  - assert (Ha : announced X c (finding :: EvFindTools (major X) (inr ts) :: ta) = []).
    { unfold announced, put_names, resolved. simpl.
      fold (put_names ta). fold (resolved ta).
      rewrite (put_names_at_stage2 ta), (resolved_at_stage2 ta) by assumption.
      destruct (local_mode c); reflexivity. }
    rewrite Ha. simpl. rewrite !printed_app, Hap. simpl.
    rewrite !List.app_nil_r. reflexivity.
Qed.

End Main.

(* ===================================================================== *)
(** ** Whole runs *)
(* ===================================================================== *)

Lemma attempts_no_storage (tr : list Event) :
  (forall ev, In ev tr -> stage ev <> Some 4%nat) -> attempts tr = [].
Proof.
  induction tr as [|ev tr IH]; intros H; [reflexivity|].
  assert (Hev := H ev (or_introl eq_refl)).
  assert (Htr : attempts tr = []) by (apply IH; intros; apply H; right; assumption).
  destruct ev; simpl in *; congruence.
Qed.

Lemma is_cleanup_stage (ev : Event) :
  is_cleanup ev -> stage ev = Some 2%nat \/ stage ev = Some 5%nat.
Proof. destruct ev; simpl; intros H; try contradiction; auto. Qed.

Lemma slice_from_1_some (s p : string) :
  slice_from_1 s = Some p -> exists a, s = String a p.
Proof.
  destruct s as [|a s]; simpl; intros H; [discriminate|].
  injection H as <-. eauto.
Qed.

Lemma leading_separator_cons (a : ascii) (s : string) :
  leading_separator (String a s) = true -> a = "/"%char.
Proof. simpl. intros H. apply Ascii.eqb_eq. exact H. Qed.

Lemma pathPrefix_prefix (s : string) :
  String.prefix pathPrefix (pathPrefix ++ s)%string = true.
Proof. destruct s; reflexivity. Qed.

(** *** The digest as text *)

Lemma compress_length (h block : list Z) :
  List.length (SHA256.compress h block) = 8%nat.
Proof. reflexivity. Qed.

Lemma fold_compress_length (bs : list (list Z)) :
  forall h, List.length h = 8%nat ->
            List.length (List.fold_left SHA256.compress bs h) = 8%nat.
Proof.
  induction bs as [|b bs IH]; simpl; intros h Hh; [exact Hh|].
  apply IH. apply compress_length.
Qed.

Lemma bytes_of_words_length (ws : list Z) :
  List.length (List.flat_map SHA256.bytes_of_word ws) = (4 * List.length ws)%nat.
Proof. induction ws as [|x ws IH]; simpl; [reflexivity|]. rewrite IH. lia. Qed.

(** A SHA-256 digest has 32 bytes. *)
Lemma Sum256_length (msg : bytes) : List.length (SHA256.Sum256 msg) = 32%nat.
Proof.
  unfold SHA256.Sum256. cbv zeta.
  rewrite List.length_map, bytes_of_words_length, fold_compress_length;
    reflexivity.
Qed.

Lemma Sprintf_x_length (b : bytes) :
  String.length (Sprintf_x b) = (2 * List.length b)%nat.
Proof. induction b as [|x b IH]; simpl; [reflexivity|]. rewrite IH. lia. Qed.

Lemma hex_digits_of_byte (x : byte) :
  is_hex (hex_digit (N.div (Byte.to_N x) 16)) = true /\
  is_hex (hex_digit (N.modulo (Byte.to_N x) 16)) = true.
Proof. destruct x; split; vm_compute; reflexivity. Qed.

Lemma Sprintf_x_hex (b : bytes) : all_hex (Sprintf_x b) = true.
Proof.
  induction b as [|x b IH]; [reflexivity|].
  destruct (hex_digits_of_byte x) as [Hhi Hlo].
  cbn [Sprintf_x all_hex]. rewrite Hhi, Hlo, IH. reflexivity.
Qed.


Lemma cleanup_fault_free (post : list Event) :
  Forall is_cleanup post -> fault_free post.
Proof.
  intros H. eapply Forall_impl; [|exact H].
  intros ev; destruct ev; simpl; intros Hc; try contradiction; reflexivity.
Qed.

Lemma Forall2_right {A B : Type} (R : A -> B -> Prop) (P : B -> Prop)
    (l : list A) (l' : list B) :
  (forall a b, R a b -> P b) -> Forall2 R l l' -> Forall P l'.
Proof. intros HR H. induction H; constructor; eauto. Qed.

Section Runs.

Variable W : Type.
Variable X : Externals W.

(** What is known of the part of a run that [Run_main] is. *)
Ltac main_facts c env w :=
  pose proof (Run_main_staged W X c env w) as Hmstaged;
  pose proof (Run_main_bounded W X c env w) as Hmbounded;
  pose proof (Run_main_disciplined W X c env w) as Hmdisc;
  pose proof (Run_main_records W X c env w) as Hmrecords;
  pose proof (Run_main_panic W X c env w) as Hmpanic;
  pose proof (Run_main_written W X c env w) as Hmwritten;
  pose proof (Run_main_empty W X c env w) as Hmempty;
  pose proof (Run_main_local W X c env w) as Hmlocal;
  pose proof (Run_main_resolved W X c env w) as Hmresolved.

(** Case analysis of [Run]: no environment; no listener; a
    local-directory run; a run against the environment's storage. *)
Ltac run_cases c w :=
  rewrite (Run_eq W X c w); cbv zeta;
  let e := fresh "e" in
  let env := fresh "env" in
  let w1 := fresh "w1" in
  let w2 := fresh "w2" in
  let w3 := fresh "w3" in
  let listener := fresh "listener" in
  let r := fresh "r" in
  let tm := fresh "tm" in
  let Hl := fresh "Hlocal" in
  destruct (environs_NewFromName X (EnvName c) w) as [[e|env] w1];
  [| destruct (local_mode c) eqn:Hl;
     [ destruct (localstorage_Serve X "127.0.0.1:0"
                   (metadataDir (normalized X c)) w1) as [[e|listener] w2];
       [| main_facts (normalized X c)
            (localdirEnv_Environ_iface
               (mklocaldirEnv env (localstorage_Client X (Listener_Addr listener))))
            w2;
          destruct (Run_main X (normalized X c)
                      (localdirEnv_Environ_iface
                         (mklocaldirEnv env
                            (localstorage_Client X (Listener_Addr listener))))
                      w2) as [[r w3] tm] ]
     | main_facts c env w1;
       destruct (Run_main X c env w1) as [[r w2] tm] ] ];
  observe.

Lemma Run_staged (c : ToolsMetadataCommand) (w : W) :
  staged 0 (events (Run X c w)).
Proof.
  run_cases c w; simpl; repeat (split; [lia|]); auto.
  - apply (staged_app 4); [lia | | assumption | simpl; auto].
    eapply staged_weaken; [|eassumption]. lia.
  - eapply staged_weaken; [|eassumption]. lia.
Qed.

Lemma Run_disciplined (c : ToolsMetadataCommand) (w : W) :
  disciplined (outcome (Run X c w)) (events (Run X c w)).
Proof.
  run_cases c w.
  - exists [], (EvNewFromName (EnvName c) (Some e)), [].
    repeat split; constructor.
  - exists [EvNewFromName (EnvName c) None],
           (EvServe "127.0.0.1:0" (metadataDir (normalized X c)) (Some e)), [].
    repeat split; repeat constructor.
  - apply (disciplined_app r [_; _] (tm ++ [_])); [repeat constructor|].
    apply disciplined_cleanup; [exact I | reflexivity | assumption].
  - apply (disciplined_app r [_] tm); [repeat constructor | assumption].
Qed.

(** An interaction that failed: its error is what [Run] returns, what
    came before it did not fail and was at its stage or an earlier one,
    and only cleanup comes after it. *)
Lemma Run_failure (c : ToolsMetadataCommand) (w : W) (ev : Event) (e : error)
    (n : nat) :
  In ev (events (Run X c w)) -> event_error ev = Some e -> stage ev = Some n ->
  outcome (Run X c w) = Err e /\
  exists pre post,
    events (Run X c w) = pre ++ ev :: post /\ fault_free pre /\
    Forall is_cleanup post /\
    Forall (fun ev' => forall m, stage ev' = Some m -> (m <= n)%nat) pre.
Proof.
  intros Hin Hev Hn.
  destruct (disciplined_failure _ _ ev e (Run_disciplined c w) Hin Hev)
    as [Hr (pre & post & Heq & Hpre & Hpost)].
  split; [exact Hr|]. exists pre, post. repeat split; auto.
  pose proof (Run_staged c w) as Hst. rewrite Heq in Hst.
  exact (proj1 (staged_split pre 0 ev post n Hst Hn)).
Qed.

(** C3: when fetching is enabled and the download of a tarball fails
    (the request or the reading of the body, for the first tarball or a
    later one), [Run] returns that error; the run has marshalled no
    document and called the storage for nothing, and after the failure
    there is cleanup only: no tarball is skipped and no other one
    tried. *)
Theorem Run_fetch_failure_aborts (c : ToolsMetadataCommand) (w : W)
    (ev : Event) (e : error) :
  In ev (events (Run X c w)) -> is_fetch ev -> event_error ev = Some e ->
  outcome (Run X c w) = Err e /\
  (forall ev', In ev' (events (Run X c w)) ->
               stage ev' <> Some 3%nat /\ stage ev' <> Some 4%nat) /\
  attempts (events (Run X c w)) = [] /\
  exists pre post,
    events (Run X c w) = pre ++ ev :: post /\
    fault_free pre /\ Forall is_cleanup post.
Proof.
  intros Hin Hfetch Hev.
  assert (Hst : stage ev = Some 2%nat)
    by (destruct ev; simpl in Hfetch; try contradiction; reflexivity).
  destruct (Run_failure c w ev e 2 Hin Hev Hst)
    as [Hr (pre & post & Heq & Hpre & Hpost & Hle)].
  assert (Hno : forall ev', In ev' (events (Run X c w)) ->
                  stage ev' <> Some 3%nat /\ stage ev' <> Some 4%nat).
  { intros ev' Hin'. rewrite Heq in Hin'.
    apply in_app_or in Hin'. destruct Hin' as [Hin'|[<-|Hin']].
    - rewrite Forall_forall in Hle. specialize (Hle ev' Hin').
      split; intros Hs; specialize (Hle _ Hs); lia.
    - rewrite Hst. split; discriminate.
    - rewrite Forall_forall in Hpost.
      destruct (is_cleanup_stage ev' (Hpost ev' Hin')) as [Hs|Hs];
        rewrite Hs; split; discriminate. }
  split; [exact Hr|]. split; [exact Hno|]. split.
  - apply attempts_no_storage. intros ev' Hin'. apply (Hno ev' Hin').
  - exists pre, post. auto.
Qed.

(** C5: when marshalling the records fails, [Run] returns that error
    and has made no call to the storage: nothing is written. *)
Theorem Run_marshal_failure_aborts (c : ToolsMetadataCommand) (w : W)
    (metadata : list ToolsMetadata) (e : error) :
  In (EvMarshal metadata (inl e)) (events (Run X c w)) ->
  outcome (Run X c w) = Err e /\
  (forall ev, In ev (events (Run X c w)) -> stage ev <> Some 4%nat) /\
  attempts (events (Run X c w)) = [] /\
  written (events (Run X c w)) = [].
Proof.
  intros Hin.
  destruct (Run_failure c w _ e 3 Hin eq_refl eq_refl)
    as [Hr (pre & post & Heq & Hpre & Hpost & Hle)].
  assert (Hno : forall ev, In ev (events (Run X c w)) -> stage ev <> Some 4%nat).
  { intros ev Hin'. rewrite Heq in Hin'.
    apply in_app_or in Hin'. destruct Hin' as [Hin'|[<-|Hin']].
    - rewrite Forall_forall in Hle. specialize (Hle ev Hin').
      intros Hs; specialize (Hle _ Hs); lia.
    - discriminate.
    - rewrite Forall_forall in Hpost.
      destruct (is_cleanup_stage ev (Hpost ev Hin')) as [Hs|Hs];
        rewrite Hs; discriminate. }
  split; [exact Hr|]. split; [exact Hno|].
  assert (Ha : attempts (events (Run X c w)) = [])
    by (apply attempts_no_storage; exact Hno).
  split; [exact Ha | apply written_no_attempts; exact Ha].
Qed.

(** What a whole run has stored is what its [Run_main] part has. *)
Lemma Run_written (c : ToolsMetadataCommand) (w : W) :
  match outcome (Run X c w) with
  | Ok _ =>
      exists md index products,
        In (EvMarshal md (inr (index, products))) (events (Run X c w)) /\
        attempts (events (Run X c w)) = List.map stored (objects X index products) /\
        written (events (Run X c w)) = objects X index products
  | Err e =>
      attempts (events (Run X c w)) = [] \/
      exists md index products done o rest,
        In (EvMarshal md (inr (index, products))) (events (Run X c w)) /\
        objects X index products = done ++ o :: rest /\
        written (events (Run X c w)) = done /\
        (attempts (events (Run X c w)) = List.map stored done \/
         attempts (events (Run X c w)) = List.map stored done ++ [(o, Some e)])
  | Panic _ => attempts (events (Run X c w)) = []
  end.
Proof.
  run_cases c w; simpl attempts; simpl written; try (left; reflexivity);
    rewrite ?attempts_app, ?written_app; simpl attempts; simpl written;
    rewrite ?List.app_nil_r; rename Hmwritten into Hw;
    destruct r as [u|e|msg]; try exact Hw.
  - destruct Hw as (md & index & products & Hin & Ha & Hwr).
    exists md, index, products. split; [|tauto].
    right. right. apply in_or_app. left. exact Hin.
  - destruct Hw as [Hw|(md & index & products & done & o & rest & Hin & Hw)];
      [left; exact Hw|right].
    exists md, index, products, done, o, rest. split; [|exact Hw].
    right. right. apply in_or_app. left. exact Hin.
  - destruct Hw as (md & index & products & Hin & Ha & Hwr).
    exists md, index, products. split; [|tauto]. right. exact Hin.
  - destruct Hw as [Hw|(md & index & products & done & o & rest & Hin & Hw)];
      [left; exact Hw|right].
    exists md, index, products, done, o, rest. split; [|exact Hw].
    right. exact Hin.
Qed.



(** C9: the derivation of the path is partial: when the URL of a
    tarball parses, without error, to a URL with an empty path, the
    slice [u.Path[1:]] is out of range and [Run] panics: it returns
    neither nil nor an error, and has stored nothing. *)
Theorem Run_empty_path_panics (c : ToolsMetadataCommand) (w : W)
    (rawurl : string) (u : URL) :
  In (EvURLParse rawurl (inr u)) (events (Run X c w)) ->
  URL_Path u = EmptyString ->
  (exists msg, outcome (Run X c w) = Panic msg) /\
  attempts (events (Run X c w)) = [].
Proof.
  intros Hin Hempty.
  assert (Hp : exists msg, outcome (Run X c w) = Panic msg).
  { revert Hin. run_cases c w; intros Hin; split_in; try discriminate;
      try stage_clash; apply Hmpanic; eauto. }
  split; [exact Hp|]. destruct Hp as [msg Hp].
  pose proof (Run_written c w) as Hw. rewrite Hp in Hw. exact Hw.
Qed.

(** C1: every record that [Run] hands to the marshaller stands for one
    tarball found, in order.  Without fetching, its size is 0 and its
    digest the empty string.  With fetching, a body was read to its end
    from the tarball's URL, the size is the number of bytes of that body
    and the digest is the hexadecimal SHA-256 of exactly those bytes
    (bodies being below [2^63] bytes, the range of the [int64] count). *)
Theorem Run_size_and_digest (c : ToolsMetadataCommand) (w : W) (mj : Z)
    (ts : list Tools) (md : list ToolsMetadata) (res : error + (bytes * bytes)) :
  (forall url resp, In (EvHttpGet url (inr resp)) (events (Run X c w)) ->
                    blen (body_bytes resp) < 2 ^ 63) ->
  In (EvFindTools mj (inr ts)) (events (Run X c w)) ->
  In (EvMarshal md res) (events (Run X c w)) ->
  Forall2 (sized c (events (Run X c w))) ts md.
Proof.
  assert (Hlift : forall c' pre tm post,
             fetch c' = fetch c ->
             (forall url resp, In (EvHttpGet url (inr resp)) (pre ++ tm ++ post) ->
                               blen (body_bytes resp) < 2 ^ 63) ->
             Forall2 (assembled X c' tm) ts md ->
             Forall2 (sized c (pre ++ tm ++ post)) ts md).
  { intros c' pre tm post Hf Hsmall H.
    eapply Forall2_impl; [|exact H].
    intros t m Ha. apply (assembled_more W X c' pre tm post) in Ha.
    destruct Ha as [_ Ha]. unfold sized. rewrite Hf in Ha.
    destruct (fetch c); [|exact Ha].
    destruct Ha as (resp & Hin & Hend & Hsize & Hsha).
    exists resp. repeat split; auto.
    rewrite Hsize. apply int64_small.
    specialize (Hsmall _ _ Hin). unfold blen in *. lia. }
  run_cases c w; intros Hsmall Hf Hm; split_in; try discriminate.
  - apply (Hlift (normalized X c) [_; _] tm [_]);
      [reflexivity | exact Hsmall | eapply Hmrecords; eassumption].
  - rewrite <- (List.app_nil_r tm).
    apply (Hlift c [_] tm []);
      [reflexivity | | eapply Hmrecords; eassumption].
    rewrite List.app_nil_r. exact Hsmall.
Qed.

(** C2, as the code has it: the path of every record handed to the
    marshaller is the path of the tarball's parsed URL without its first
    byte.  When the URL's path begins with the separator, that byte is
    the separator; when it begins with one separator and not two, the
    record's path does not begin with the separator. *)
Theorem Run_path_drops_first_byte (c : ToolsMetadataCommand) (w : W) (mj : Z)
    (ts : list Tools) (md : list ToolsMetadata) (res : error + (bytes * bytes)) :
  In (EvFindTools mj (inr ts)) (events (Run X c w)) ->
  In (EvMarshal md res) (events (Run X c w)) ->
  Forall2
    (fun t m =>
       exists u a,
         url_Parse X (Tools_URL t) = inr u /\
         URL_Path u = String a (ToolsMetadata_Path m) /\
         (leading_separator (URL_Path u) = true -> a = "/"%char) /\
         (leading_separator (URL_Path u) = true ->
          doubled_separator (URL_Path u) = false ->
          leading_separator (ToolsMetadata_Path m) = false))
    ts md.
Proof.
  assert (Hlift : forall c' tm,
             Forall2 (assembled X c' tm) ts md ->
             Forall2
               (fun t m =>
                  exists u a,
                    url_Parse X (Tools_URL t) = inr u /\
                    URL_Path u = String a (ToolsMetadata_Path m) /\
                    (leading_separator (URL_Path u) = true -> a = "/"%char) /\
                    (leading_separator (URL_Path u) = true ->
                     doubled_separator (URL_Path u) = false ->
                     leading_separator (ToolsMetadata_Path m) = false))
               ts md).
  { intros c' tm H. eapply Forall2_impl; [|exact H].
    intros t m [(u & urlPath & Hu & Hslice & Hm) _].
    destruct (slice_from_1_some _ _ Hslice) as [a Ha].
    assert (Hp : ToolsMetadata_Path m = urlPath) by (rewrite Hm; reflexivity).
    exists u, a. rewrite Hp, Ha. repeat split; auto.
    - apply leading_separator_cons.
    - intros Hsep Hdouble. simpl in Hsep, Hdouble.
      rewrite Hsep in Hdouble. exact Hdouble. }
  run_cases c w; intros Hf Hm; split_in; try discriminate;
    eapply Hlift; eapply Hmrecords; eassumption.
Qed.


(** C7: a run that returns nil has stored exactly two objects, first
    the unsigned index at ["tools/"] followed by the index path and the
    unsigned suffix, then the products at ["tools/"] followed by the
    products path, with the documents the marshaller returned; and in
    local-directory mode the last two progress lines report, for each of
    them, the directory joined with the object's path. *)
Theorem Run_publishes_two_objects (c : ToolsMetadataCommand) (w : W) (u : unit) :
  outcome (Run X c w) = Ok u ->
  exists md index products,
    In (EvMarshal md (inr (index, products))) (events (Run X c w)) /\
    written (events (Run X c w)) =
    [ ((pathPrefix ++ simplestreams_DefaultIndexPath X
          ++ simplestreams_UnsignedSuffix X)%string, index);
      ((pathPrefix ++ tools_ProductMetadataPath X)%string, products) ] /\
    attempts (events (Run X c w)) = List.map stored (written (events (Run X c w))) /\
    Forall (fun o => String.prefix pathPrefix (fst o) = true)
           (written (events (Run X c w))) /\
    (local_mode c = true -> local_mode (normalized X c) = true ->
     exists before,
       printed (events (Run X c w)) =
       before ++ List.map
                   (fun o => report (filepath_Join X (metadataDir (normalized X c))
                                                   (fst o)))
                   (written (events (Run X c w)))).
Proof.
  intros Hok.
  pose proof (Run_written c w) as Hw. rewrite Hok in Hw.
  destruct Hw as (md & index & products & Hin & Ha & Hwr).
  exists md, index, products. rewrite Ha, Hwr.
  split; [exact Hin|]. split; [reflexivity|]. split; [reflexivity|]. split.
  { unfold objects. repeat constructor; simpl fst; apply pathPrefix_prefix. }
  intros Hlocal Hnorm. clear Hin Ha Hwr. revert Hok.
  run_cases c w; intros Hok; try discriminate.
  destruct Hmlocal as [_ Hshape]; [exact Hnorm|].
  destruct (Hshape u Hok) as (pre & md' & index' & products' & ->).
  exists (printed pre). simpl. rewrite !printed_app. simpl.
  rewrite List.app_nil_r. reflexivity.
Qed.

(** C8, as the code has it: the outcome of a run does depend on address
    resolution.  A resolution that fails makes [Run] return its error,
    with nothing but cleanup after it: the object is not put.  A
    resolution that succeeds is followed by the progress line with the
    address and by the [Put] of the object, whatever the address.  In
    local-directory mode no address is resolved. *)
Theorem Run_address_resolution (c : ToolsMetadataCommand) (w : W) :
  (forall name e,
      In (EvStorageURL name (inl e)) (events (Run X c w)) ->
      outcome (Run X c w) = Err e /\
      exists pre post,
        events (Run X c w) = pre ++ EvStorageURL name (inl e) :: post /\
        fault_free pre /\ Forall is_cleanup post) /\
  resolved_then_put (events (Run X c w)) /\
  (local_mode c = true -> local_mode (normalized X c) = true ->
   forall name res, ~ In (EvStorageURL name res) (events (Run X c w))).
Proof.
  split; [|split].
  - intros name e Hin.
    destruct (Run_failure c w _ e 4 Hin eq_refl eq_refl)
      as [Hr (pre & post & Heq & Hpre & Hpost & _)].
    split; [exact Hr|]. exists pre, post. auto.
  - run_cases c w; simpl; auto.
    apply resolved_then_put_app; [assumption | exact I].
  - intros Hlocal Hnorm name res.
    run_cases c w; intros Hin; split_in; try discriminate.
    destruct Hmlocal as [Hno _]; [exact Hnorm|]. exact (Hno name res Hin).
Qed.

(** C10: [fetchToolsHash] never looks at the status code.  It returns
    the error of the request when the request fails; otherwise, for a
    response of any status, it returns the number of body bytes read (as
    an [int64]), a hash whose sum is the SHA-256 of exactly those bytes,
    and as its error the error the reading of the body ended with: nil
    when the body was read to its end. *)
Theorem fetchToolsHash_ignores_status (url : string) (w : W) :
  match http_Get X url w with
  | (inl e, _) => outcome (fetchToolsHash X url w) = Ok (0, None, Some e)
  | (inr (mkResponse status body), _) =>
      let data := List.concat (Reader_chunks body) in
      exists h,
        outcome (fetchToolsHash X url w)
          = Ok (int64 (blen data), Some h, Reader_err body) /\
        Hash_Sum h [] = SHA256.Sum256 data
  end.
Proof.
  rewrite fetchToolsHash_eq.
  destruct (http_Get X url w) as [[e|[status body]] w1]; [reflexivity|].
  cbv zeta. exists (mkHash (List.concat (Reader_chunks body))).
  split; reflexivity.
Qed.

(** *** More on whole runs *)

(** X1: with fetching, the sha256 field of every record handed to the
    marshaller is 64 lower-case hexadecimal digits. *)
Theorem Run_digest_format (c : ToolsMetadataCommand) (w : W) (mj : Z)
    (ts : list Tools) (md : list ToolsMetadata) (res : error + (bytes * bytes)) :
  fetch c = true ->
  In (EvFindTools mj (inr ts)) (events (Run X c w)) ->
  In (EvMarshal md res) (events (Run X c w)) ->
  Forall (fun m => String.length (ToolsMetadata_SHA256 m) = 64%nat /\
                   all_hex (ToolsMetadata_SHA256 m) = true) md.
Proof.
  intros Hfetch.
  assert (Hlift : forall c' tm,
             fetch c' = true -> Forall2 (assembled X c' tm) ts md ->
             Forall (fun m => String.length (ToolsMetadata_SHA256 m) = 64%nat /\
                              all_hex (ToolsMetadata_SHA256 m) = true) md).
  { intros c' tm Hf. apply Forall2_right.
    intros t m [_ Hs]. rewrite Hf in Hs.
    destruct Hs as (resp & _ & _ & _ & ->).
    rewrite Sprintf_x_length, Sum256_length, Sprintf_x_hex. auto. }
  run_cases c w; intros Hf Hm; split_in; try discriminate;
    (eapply Hlift; [|eapply Hmrecords; eassumption]); exact Hfetch.
Qed.

(** X2: every record handed to the marshaller has the series, the
    version number as text and the architecture of the tarball it stands
    for, and the file type ["tar.gz"]. *)
Theorem Run_record_fields (c : ToolsMetadataCommand) (w : W) (mj : Z)
    (ts : list Tools) (md : list ToolsMetadata) (res : error + (bytes * bytes)) :
  In (EvFindTools mj (inr ts)) (events (Run X c w)) ->
  In (EvMarshal md res) (events (Run X c w)) ->
  Forall2
    (fun t m =>
       ToolsMetadata_Release m = Binary_Series (Tools_Version t) /\
       ToolsMetadata_Version m = Number_String X (Binary_Number (Tools_Version t)) /\
       ToolsMetadata_Arch m = Binary_Arch (Tools_Version t) /\
       ToolsMetadata_FileType m = "tar.gz")
    ts md.
Proof.
  assert (Hlift : forall c' tm,
             Forall2 (assembled X c' tm) ts md ->
             Forall2
               (fun t m =>
                  ToolsMetadata_Release m = Binary_Series (Tools_Version t) /\
                  ToolsMetadata_Version m
                    = Number_String X (Binary_Number (Tools_Version t)) /\
                  ToolsMetadata_Arch m = Binary_Arch (Tools_Version t) /\
                  ToolsMetadata_FileType m = "tar.gz")
               ts md).
  { intros c' tm H. eapply Forall2_impl; [|exact H].
    intros t m [(u & urlPath & _ & _ & Hm) _].
    destruct m; simpl in *. unfold record_of in Hm. injection Hm as -> -> -> _ ->.
    auto. }
  run_cases c w; intros Hf Hm; split_in; try discriminate;
    eapply Hlift; eapply Hmrecords; eassumption.
Qed.

(** X3: the products document is never stored without the index: what
    a run has stored is nothing, the index alone, or the index and then
    the products, and both only when it returns nil. *)
Theorem Run_index_before_products (c : ToolsMetadataCommand) (w : W) :
  written (events (Run X c w)) = [] \/
  exists md index products,
    In (EvMarshal md (inr (index, products))) (events (Run X c w)) /\
    (written (events (Run X c w)) = [(index_path X, index)] \/
     written (events (Run X c w))
       = [(index_path X, index); (products_path X, products)] /\
     outcome (Run X c w) = Ok tt).
Proof.
  pose proof (Run_written c w) as Hw.
  destruct (outcome (Run X c w)) as [[]|e|msg].
  - right. destruct Hw as (md & index & products & Hin & _ & Hwr).
    exists md, index, products. split; [exact Hin|]. right. split; [exact Hwr|auto].
  - destruct Hw as [Hw|(md & index & products & done & o & rest & Hin & Ho & Hwr & _)].
    + left. apply written_no_attempts. exact Hw.
    + rewrite Hwr. unfold objects in Ho.
      destruct done as [|o1 [|o2 done]]; [left; reflexivity| |].
      * right. exists md, index, products. split; [exact Hin|]. left.
        simpl in Ho. injection Ho as <- _. reflexivity.
      * exfalso. apply (f_equal (@List.length _)) in Ho.
        simpl in Ho. rewrite List.length_app in Ho. simpl in Ho. lia.
  - left. apply written_no_attempts. exact Hw.
Qed.


End Runs.

(* ===================================================================== *)
(** ** What a run does, and what it never does *)
(* ===================================================================== *)

Section Coverage.

Variable W : Type.
Variable X : Externals W.

(** Case analysis of [Run], with what is to be known of its [Run_main]
    part ([facts]) stated before the result of that part is named. *)
Ltac run_split facts c w :=
  rewrite (Run_eq W X c w); cbv zeta;
  let e := fresh "e" in
  let env := fresh "env" in
  let w1 := fresh "w1" in
  let w2 := fresh "w2" in
  let w3 := fresh "w3" in
  let listener := fresh "listener" in
  let r := fresh "r" in
  let tm := fresh "tm" in
  let Hl := fresh "Hlocal" in
  let Hm := fresh "Hmain" in
  destruct (environs_NewFromName X (EnvName c) w) as [[e|env] w1];
  [| destruct (local_mode c) eqn:Hl;
     [ destruct (localstorage_Serve X "127.0.0.1:0"
                   (metadataDir (normalized X c)) w1) as [[e|listener] w2];
       [| facts (normalized X c)
            (localdirEnv_Environ_iface
               (mklocaldirEnv env (localstorage_Client X (Listener_Addr listener))))
            w2;
          destruct (Run_main X (normalized X c)
                      (localdirEnv_Environ_iface
                         (mklocaldirEnv env
                            (localstorage_Client X (Listener_Addr listener))))
                      w2) as [[r w3] tm] eqn:Hm ]
     | facts c env w1;
       destruct (Run_main X c env w1) as [[r w2] tm] eqn:Hm ] ];
  observe.

(** Every interaction of a run is one [Run] can have. *)
Lemma Run_in_run (c : ToolsMetadataCommand) (w : W) :
  Forall (in_run X c) (events (Run X c w)).
Proof.
  run_split ltac:(fun c' env' w' =>
                    pose proof (Run_main_in_main W X c' env' w') as Hin) c w;
    repeat match goal with
           | |- Forall _ (_ :: _) => apply Forall_cons; [simpl; auto|]
           | |- Forall _ (_ ++ _) => apply Forall_app; split
           | |- Forall _ [] => apply Forall_nil
           end;
    try (simpl; rewrite Hlocal; auto; fail);
    (eapply Forall_impl; [|exact Hin]);
    intros ev Hev; destruct ev; simpl in *; try contradiction;
    rewrite ?Hlocal; tauto.
Qed.

(** X5: without fetching, [Run] makes no request, reads no body and
    closes none. *)
Theorem Run_no_download_without_fetch (c : ToolsMetadataCommand) (w : W) :
  fetch c = false ->
  forall ev, In ev (events (Run X c w)) -> ~ is_fetch ev /\ ev <> EvBodyClose.
Proof.
  intros Hfetch ev Hin.
  pose proof (Run_in_run c w) as Hall. rewrite Forall_forall in Hall.
  specialize (Hall ev Hin).
  assert (Hf : fetch (if local_mode c then normalized X c else c) = false)
    by (destruct (local_mode c); exact Hfetch).
  destruct ev; simpl in *; split; try tauto; try discriminate;
    try (intros _; congruence); congruence.
Qed.

(** X6: every [Put] of a run, whether it succeeds or not, is of one of
    the two objects, under ["tools/"], and is given the length of the
    data as its length; and addresses are resolved for these two paths
    only. *)
Theorem Run_puts_only_the_two_objects (c : ToolsMetadataCommand) (w : W) :
  (forall name data length err,
      In (EvStoragePut name data length err) (events (Run X c w)) ->
      length = int64 (blen data) /\
      (name = index_path X \/ name = products_path X) /\
      String.prefix pathPrefix name = true) /\
  (forall name res,
      In (EvStorageURL name res) (events (Run X c w)) ->
      name = index_path X \/ name = products_path X).
Proof.
  pose proof (Run_in_run c w) as Hall. rewrite Forall_forall in Hall.
  split.
  - intros name data length err Hin. specialize (Hall _ Hin). simpl in Hall.
    destruct Hall as [Hlen Hname]. split; [exact Hlen|]. split; [exact Hname|].
    destruct Hname as [-> | ->]; apply pathPrefix_prefix.
  - intros name res Hin. specialize (Hall _ Hin). simpl in Hall. tauto.
Qed.

(** The assembly part of the log of [Run] is that of the loop over the
    tarballs found. *)
Lemma Run_assembly (c : ToolsMetadataCommand) (w : W) :
  (assembly_of (events (Run X c w)) = [] /\
   forall mj ts, ~ In (EvFindTools mj (inr ts)) (events (Run X c w))) \/
  exists c' ts w1,
    fetch c' = fetch c /\
    (forall mj ts', In (EvFindTools mj (inr ts')) (events (Run X c w)) ->
                    ts' = ts) /\
    assembly_of (events (Run X c w))
      = assembly_of (events (Run_assemble X c' ts w1)) /\
    (forall md res, In (EvMarshal md res) (events (Run X c w)) ->
                    outcome (Run_assemble X c' ts w1) = Ok md).
Proof.
  run_split ltac:(fun c' env' w' =>
                    pose proof (Run_main_assembly W X c' env' w') as Hasm) c w.
  - left. split; [reflexivity|]. intros mj ts Hin. split_in; discriminate.
  - left. split; [reflexivity|]. intros mj ts Hin. split_in; discriminate.
  - destruct Hasm as [[Hnil Hno]|(ts & w' & Hts & Heq & Hmd)].
    + left. split.
      * change (assembly_of (tm ++ [EvListenerClose (Listener_Addr listener)]) = []).
        rewrite assembly_of_app, Hnil. reflexivity.
      * intros mj ts Hin. split_in; try discriminate. exact (Hno mj ts Hin).
    + right. exists (normalized X c), ts, w'. split; [reflexivity|].
      split; [|split].
      * intros mj ts' Hin. split_in; try discriminate. exact (Hts mj ts' Hin).
      * change (assembly_of (tm ++ [EvListenerClose (Listener_Addr listener)])
                = assembly_of (events (Run_assemble X (normalized X c) ts w'))).
        rewrite assembly_of_app, Heq. apply List.app_nil_r.
      * intros md res Hin. split_in; try discriminate. exact (Hmd md res Hin).
  - destruct Hasm as [[Hnil Hno]|(ts & w' & Hts & Heq & Hmd)].
    + left. split; [exact Hnil|].
      intros mj ts Hin. split_in; try discriminate. exact (Hno mj ts Hin).
    + right. exists c, ts, w'. split; [reflexivity|]. split; [|split].
      * intros mj ts' Hin. split_in; try discriminate. exact (Hts mj ts' Hin).
      * exact Heq.
      * intros md res Hin. split_in; try discriminate. exact (Hmd md res Hin).
Qed.

(** X7: the tarballs found are processed in the order of discovery,
    each at most once, one after the other: the URLs parsed are the first
    [k] of the tarballs found and the URLs requested the first [j]; with
    fetching, every URL parsed is requested except possibly the last one
    parsed, without fetching none; and a run that reaches the marshaller
    has parsed them all and, with fetching, requested them all. *)
Theorem Run_processing_order (c : ToolsMetadataCommand) (w : W) (mj : Z)
    (ts : list Tools) :
  In (EvFindTools mj (inr ts)) (events (Run X c w)) ->
  exists k j,
    parses (events (Run X c w)) = List.map Tools_URL (List.firstn k ts) /\
    gets (events (Run X c w)) = List.map Tools_URL (List.firstn j ts) /\
    (if fetch c then j <= k <= j + 1 else j = 0)%nat /\
    (forall md res, In (EvMarshal md res) (events (Run X c w)) ->
                    k = List.length ts /\ (fetch c = true -> j = List.length ts)).
Proof.
  intros Hin.
  destruct (Run_assembly c w) as [[_ Hno]|(c' & ts0 & w1 & Hf & Hts & Heq & Hmd)];
    [exfalso; exact (Hno mj ts Hin)|].
  rewrite (Hts mj ts Hin) in *. clear Hin Hts.
  destruct (Run_assemble_order W X c' ts0 w1) as (k & j & Hp & Hg & Hjk & Hok).
  exists k, j. rewrite <- Hf.
  rewrite <- parses_assembly, <- gets_assembly, Heq,
    parses_assembly, gets_assembly.
  repeat split; auto; destruct (Hok md (Hmd md res H)); auto.
Qed.

(** X8: every response [Run] obtains has its body closed: a run has as
    many closed bodies as requests that succeeded. *)
Theorem Run_closes_every_body (c : ToolsMetadataCommand) (w : W) :
  List.length (closes (events (Run X c w)))
  = List.length (responses (events (Run X c w))).
Proof.
  rewrite <- closes_assembly, <- responses_assembly.
  destruct (Run_assembly c w) as [[-> _]|(c' & ts & w1 & _ & _ & -> & _)];
    [reflexivity|].
  rewrite closes_assembly, responses_assembly.
  symmetry. apply Run_assemble_closes.
Qed.

(** X9: discovery is asked once per run, for the major version of
    [version.Current], unless the set-up fails: then it is not asked at
    all and [Run] returns the error of the set-up. *)
Theorem Run_discovers_once (c : ToolsMetadataCommand) (w : W) :
  discoveries (events (Run X c w)) = [major X] \/
  discoveries (events (Run X c w)) = [] /\
  exists ev e,
    In ev (events (Run X c w)) /\ stage ev = Some 0%nat /\
    event_error ev = Some e /\ outcome (Run X c w) = Err e.
Proof.
  run_split ltac:(fun c' env' w' =>
                    pose proof (Run_main_discoveries W X c' env' w') as Hd) c w.
  - right. split; [reflexivity|].
    exists (EvNewFromName (EnvName c) (Some e)), e. simpl. auto.
  - right. split; [reflexivity|].
    exists (EvServe "127.0.0.1:0" (utils_NormalizePath X (metadataDir c)) (Some e)), e.
    simpl. auto.
  - left. unfold discoveries in *. simpl. rewrite List.flat_map_app, Hd.
    reflexivity.
  - left. exact Hd.
Qed.

(** X10: with a local directory, [Run] does not use the storage of the
    environment: whatever that storage is, the run is the same. *)
Theorem Run_local_ignores_environment_storage (c : ToolsMetadataCommand) (w : W)
    (s : Storage W) :
  local_mode c = true ->
  Run (with_storage X s) c w = Run X c w.
Proof.
  intros Hlocal. rewrite !Run_eq. cbv zeta. rewrite Hlocal.
  cbn [with_storage environs_NewFromName].
  destruct (environs_NewFromName X (EnvName c) w) as [[e|env] w1]; reflexivity.
Qed.

(** Set-up and tear-down print nothing and have no progress line. *)
Lemma progress_cons (c : ToolsMetadataCommand) (ev : Event) (tr : list Event) :
  stage ev = Some 0%nat -> progress X c (ev :: tr) = progress X c tr.
Proof. destruct ev; simpl; intros H; try discriminate H; reflexivity. Qed.

Lemma progress_closed (c : ToolsMetadataCommand) (a : string) (tr : list Event) :
  progress X c (tr ++ [EvListenerClose a]) = progress X c tr.
Proof.
  unfold progress, announced, discoveries, gets, put_names, resolved.
  rewrite !List.flat_map_app. simpl. rewrite !List.app_nil_r. reflexivity.
Qed.

(** X11: what [Run] prints is determined by what it does: the search
    is announced when discovery is asked, then each request is announced,
    in order, then each place written to is: with a local directory, the
    directory joined with the name of each object put; without, each
    address that resolved. *)
Theorem Run_progress_lines (c : ToolsMetadataCommand) (w : W) :
  printed (events (Run X c w))
  = printed (progress X (if local_mode c then normalized X c else c)
                      (events (Run X c w))).
Proof.
  run_split ltac:(fun c' env' w' =>
                    pose proof (Run_main_printed W X c' env' w') as Hp) c w.
  - unfold progress, announced. simpl.
    destruct (local_mode (if local_mode c then normalized X c else c));
      reflexivity.
  - unfold progress, announced. simpl.
    destruct (local_mode (normalized X c)); reflexivity.
  - rewrite !progress_cons by reflexivity. rewrite progress_closed.
    simpl. rewrite printed_app. simpl. rewrite List.app_nil_r. exact Hp.
  - rewrite progress_cons by reflexivity. exact Hp.
Qed.

End Coverage.

(** X12: no error is swallowed.  An interaction that fails ends the
    run: [Run] returns its error, nothing failed before it, what came
    before it was at its stage or an earlier one, and after it there is
    cleanup only, which does not fail. *)
Theorem Run_every_error_is_fatal (W : Type) (X : Externals W)
    (c : ToolsMetadataCommand) (w : W) (ev : Event) (e : error) :
  In ev (events (Run X c w)) -> event_error ev = Some e ->
  outcome (Run X c w) = Err e /\
  exists pre post,
    events (Run X c w) = pre ++ ev :: post /\
    fault_free pre /\ Forall is_cleanup post /\ fault_free post /\
    (forall ev' n m, In ev' pre -> stage ev = Some n -> stage ev' = Some m ->
                     (m <= n)%nat).
Proof.
  intros Hin Hev.
  destruct (disciplined_failure _ _ ev e (Run_disciplined W X c w) Hin Hev)
    as [Hr (pre & post & Heq & Hpre & Hpost)].
  split; [exact Hr|]. exists pre, post.
  split; [exact Heq|]. split; [exact Hpre|]. split; [exact Hpost|].
  split; [apply cleanup_fault_free; exact Hpost|].
  intros ev' n m Hin' Hn Hm.
  pose proof (Run_staged W X c w) as Hst. rewrite Heq in Hst.
  destruct (staged_split pre 0 ev post n Hst Hn) as [Hle _].
  rewrite Forall_forall in Hle. exact (Hle ev' Hin' m Hm).
Qed.

(** X13: a run goes through its stages in order: set-up, discovery,
    hashing and assembly, serialization, publishing, tear-down.  Of two
    interactions, the later one is never at an earlier stage. *)
Theorem Run_stages_in_order (W : Type) (X : Externals W)
    (c : ToolsMetadataCommand) (w : W)
    (pre mid post : list Event) (ev1 ev2 : Event) (n1 n2 : nat) :
  events (Run X c w) = pre ++ ev1 :: mid ++ ev2 :: post ->
  stage ev1 = Some n1 -> stage ev2 = Some n2 -> (n1 <= n2)%nat.
Proof.
  intros Heq H1 H2.
  pose proof (Run_staged W X c w) as Hst. rewrite Heq in Hst.
  destruct (staged_split pre 0 ev1 (mid ++ ev2 :: post) n1 Hst H1) as [_ Hge].
  rewrite Forall_forall in Hge.
  apply (Hge ev2); [|exact H2].
  apply in_or_app. right. left. reflexivity.
Qed.

(* ===================================================================== *)
(** ** Runs of the command *)
(* ===================================================================== *)

Import Scenario.

(** Membership in a computed log. *)
Ltac in_log := vm_compute; repeat (first [left; reflexivity | right]).

(** The scenario of the specification: one tarball, fetched; 42 bytes. *)
Example fetched_record :
  events (Run (externals (healthy [tarball])) (remote true) []) =
  [ EvNewFromName "test" None;
    finding;
    EvFindTools 1 (inr [tarball]);
    EvURLParse (Tools_URL tarball)
      (inr (mkURL "https" "host" "/tools/1.2.3/ubuntu-amd64.tar.gz"));
    fetching (Tools_URL tarball);
    EvHttpGet (Tools_URL tarball) (inr (mkResponse 200 (mkReader content None)));
    EvCopy 42 None;
    EvBodyClose;
    EvMarshal [expected] (marshal (healthy [tarball]) [expected]);
    EvStorageURL "tools/streams/v1/index.json"
      (inr "https://storage.example/tools/streams/v1/index.json");
    writing "https://storage.example/tools/streams/v1/index.json";
    put_event "tools/streams/v1/index.json"
      (bytes_of_string "com.ubuntu.juju:released:tools") None;
    EvStorageURL "tools/streams/v1/com.ubuntu.juju:released:tools.json"
      (inr "https://storage.example/tools/streams/v1/com.ubuntu.juju:released:tools.json");
    writing "https://storage.example/tools/streams/v1/com.ubuntu.juju:released:tools.json";
    put_event "tools/streams/v1/com.ubuntu.juju:released:tools.json"
      (bytes_of_string (line expected)) None ].
Proof. vm_compute. reflexivity. Qed.

(** The same tarball, not fetched. *)
Example unfetched_record :
  exists res,
    In (EvMarshal [record_of (externals (healthy [tarball])) tarball
                     "tools/1.2.3/ubuntu-amd64.tar.gz" 0 EmptyString] res)
       (events (Run (externals (healthy [tarball])) (remote false) [])).
Proof. eexists. in_log. Qed.

(** The storage refuses the second object: the first one stays. *)
Example partial_publish :
  outcome (Run (externals (products_refused [])) (remote true) [])
    = Err "quota exceeded" /\
  written (events (Run (externals (products_refused [])) (remote true) []))
    = [("tools/streams/v1/index.json",
        bytes_of_string "com.ubuntu.juju:released:tools")].
Proof. split; vm_compute; reflexivity. Qed.

(** A 404 page is hashed like a tarball. *)
Example not_found_is_hashed :
  outcome (fetchToolsHash
             (externals (mkConfig (inr []) (serve 404) (fun _ => None)
                                  (fun _ => None) None))
             "https://host/nothing" [])
  = Ok (42, Some (mkHash (List.concat content)), None).
Proof. vm_compute. reflexivity. Qed.

(** Local-directory mode with the directory [/tmp/out]. *)
Example local_reports :
  printed (events (Run (externals (healthy [])) (local true) [])) =
  [ String.append "Finding tools..." (String "010" EmptyString);
    report "/tmp/out/tools/streams/v1/index.json";
    report "/tmp/out/tools/streams/v1/com.ubuntu.juju:released:tools.json" ].
Proof. vm_compute. reflexivity. Qed.

(** Where a computed log has an interaction of a given form. *)
Ltac from_log H :=
  vm_compute in H;
  repeat match type of H with
         | _ \/ _ => destruct H as [H|H]; [try discriminate H|]
         | False => destruct H
         end.

(** One tarball, fetched: 42 bytes and their digest. *)
Lemma Run_size_and_digest_witness :
  Forall2 (sized (remote true) (events (Run one_tarball (remote true) [])))
          [tarball] [expected].
Proof.
  apply (Run_size_and_digest World one_tarball (remote true) []
           1 [tarball] [expected] (marshal (healthy [tarball]) [expected])).
  - intros url resp H. from_log H.
    injection H as <- <-. vm_compute. reflexivity.
  - in_log.
  - in_log.
Defined.

(** A URL with a doubled separator after the host gives a record whose
    path begins with a separator. *)
Lemma doubled_separator_keeps_one :
  In (EvMarshal [doubled_record] (marshal (healthy [doubled]) [doubled_record]))
     (events (Run one_doubled (remote false) [])) /\
  leading_separator (ToolsMetadata_Path doubled_record) = true /\
  ~ paths_without_leading_separator one_doubled.
Proof.
  assert (Hin : In (EvMarshal [doubled_record]
                      (marshal (healthy [doubled]) [doubled_record]))
                   (events (Run one_doubled (remote false) []))) by in_log.
  split; [exact Hin|]. split; [reflexivity|].
  intros H.
  specialize (H (remote false) [] [doubled_record] _ doubled_record Hin
                (or_introl eq_refl)).
  discriminate H.
Qed.

(** The usual URL: one separator after the host, none in the record. *)
Lemma Run_path_drops_first_byte_witness :
  Forall2
    (fun t m =>
       exists u a,
         parse_url (Tools_URL t) = inr u /\
         URL_Path u = String a (ToolsMetadata_Path m) /\
         (leading_separator (URL_Path u) = true -> a = "/"%char) /\
         (leading_separator (URL_Path u) = true ->
          doubled_separator (URL_Path u) = false ->
          leading_separator (ToolsMetadata_Path m) = false))
    [tarball] [expected].
Proof.
  apply (Run_path_drops_first_byte World one_tarball
           (remote true) [] 1 [tarball] [expected]
           (marshal (healthy [tarball]) [expected])).
  - in_log.
  - in_log.
Defined.

(** The download of the second of three tarballs is refused. *)
Lemma Run_fetch_failure_aborts_witness :
  outcome (Run second_refused (remote true) []) = Err "connection refused" /\
  (forall ev', In ev' (events (Run second_refused (remote true) [])) ->
               stage ev' <> Some 3%nat /\ stage ev' <> Some 4%nat) /\
  attempts (events (Run second_refused (remote true) [])) = [] /\
  exists pre post,
    events (Run second_refused (remote true) [])
      = pre ++ EvHttpGet (Tools_URL tarball_i386) (inl "connection refused") :: post /\
    fault_free pre /\ Forall is_cleanup post.
Proof.
  apply (Run_fetch_failure_aborts World second_refused (remote true) []
           (EvHttpGet (Tools_URL tarball_i386) (inl "connection refused"))
           "connection refused").
  - in_log.
  - exact I.
  - reflexivity.
Defined.

(** The marshaller rejects the records of a run. *)
Lemma Run_marshal_failure_aborts_witness :
  outcome (Run rejected_records (remote true) []) = Err "invalid metadata" /\
  (forall ev, In ev (events (Run rejected_records (remote true) [])) ->
              stage ev <> Some 4%nat) /\
  attempts (events (Run rejected_records (remote true) [])) = [] /\
  written (events (Run rejected_records (remote true) [])) = [].
Proof.
  apply (Run_marshal_failure_aborts World rejected_records (remote true) []
           [expected] "invalid metadata").
  in_log.
Defined.


(** A local-directory run that returns nil. *)
Lemma Run_publishes_two_objects_witness :
  exists md index products,
    In (EvMarshal md (inr (index, products)))
       (events (Run one_tarball (local false) [])) /\
    written (events (Run one_tarball (local false) [])) =
    [ ("tools/streams/v1/index.json", index);
      ("tools/streams/v1/com.ubuntu.juju:released:tools.json", products) ] /\
    attempts (events (Run one_tarball (local false) []))
      = List.map stored (written (events (Run one_tarball (local false) []))) /\
    Forall (fun o => String.prefix pathPrefix (fst o) = true)
           (written (events (Run one_tarball (local false) []))) /\
    (local_mode (local false) = true ->
     local_mode (normalized one_tarball (local false)) = true ->
     exists before,
       printed (events (Run one_tarball (local false) [])) =
       before ++ List.map (fun o => report (join_path "/tmp/out" (fst o)))
                          (written (events (Run one_tarball (local false) [])))).
Proof.
  apply (Run_publishes_two_objects World one_tarball (local false) [] tt).
  vm_compute. reflexivity.
Defined.

(** Addresses that do not resolve change the outcome of a run: with the
    same storage otherwise, [Run] returns nil when they resolve and the
    error of the resolution, with nothing stored, when they do not. *)
Lemma resolution_decides_outcome :
  outcome (Run (externals (healthy [])) (remote true) []) = Ok tt /\
  outcome (Run (externals (unresolvable (healthy []))) (remote true) [])
    = Err "no address" /\
  written (events (Run (externals (unresolvable (healthy []))) (remote true) []))
    = [] /\
  ~ outcome_independent_of_resolution.
Proof.
  split; [vm_compute; reflexivity|].
  split; [vm_compute; reflexivity|].
  split; [vm_compute; reflexivity|].
  intros H. specialize (H (healthy []) (remote true) []).
  vm_compute in H. discriminate H.
Qed.

(** The second tarball is at the root of its host. *)
Lemma Run_empty_path_panics_witness :
  (exists msg, outcome (Run second_bare (remote true) []) = Panic msg) /\
  attempts (events (Run second_bare (remote true) [])) = [].
Proof.
  apply (Run_empty_path_panics World second_bare (remote true) [] "https://host"
           (mkURL "https" "host" EmptyString)).
  - in_log.
  - reflexivity.
Defined.



(** *** More runs *)

(** The digest of the fetched tarball. *)
Lemma Run_digest_format_witness :
  Forall (fun m => String.length (ToolsMetadata_SHA256 m) = 64%nat /\
                   all_hex (ToolsMetadata_SHA256 m) = true)
         [expected].
Proof.
  apply (Run_digest_format World one_tarball (remote true) [] 1 [tarball]
           [expected] (marshal (healthy [tarball]) [expected])).
  - reflexivity.
  - in_log.
  - in_log.
Defined.

(** The fields of the record of the fetched tarball. *)
Lemma Run_record_fields_witness :
  Forall2
    (fun t m =>
       ToolsMetadata_Release m = Binary_Series (Tools_Version t) /\
       ToolsMetadata_Version m
         = Number_String one_tarball (Binary_Number (Tools_Version t)) /\
       ToolsMetadata_Arch m = Binary_Arch (Tools_Version t) /\
       ToolsMetadata_FileType m = "tar.gz")
    [tarball] [expected].
Proof.
  apply (Run_record_fields World one_tarball (remote true) [] 1 [tarball]
           [expected] (marshal (healthy [tarball]) [expected])).
  - in_log.
  - in_log.
Defined.

(** A run without fetching. *)
Lemma Run_no_download_without_fetch_witness :
  ~ is_fetch (EvMarshal [record_of one_tarball tarball
                           "tools/1.2.3/ubuntu-amd64.tar.gz" 0 EmptyString]
                (marshal (healthy [tarball])
                   [record_of one_tarball tarball
                      "tools/1.2.3/ubuntu-amd64.tar.gz" 0 EmptyString])) /\
  EvMarshal [record_of one_tarball tarball
               "tools/1.2.3/ubuntu-amd64.tar.gz" 0 EmptyString]
    (marshal (healthy [tarball])
       [record_of one_tarball tarball
          "tools/1.2.3/ubuntu-amd64.tar.gz" 0 EmptyString])
  <> EvBodyClose.
Proof.
  apply (Run_no_download_without_fetch World one_tarball (remote false) []).
  - reflexivity.
  - in_log.
Defined.

Example unfetched_log :
  events (Run one_tarball (remote false) []) =
  [ EvNewFromName "test" None;
    finding;
    EvFindTools 1 (inr [tarball]);
    EvURLParse (Tools_URL tarball)
      (inr (mkURL "https" "host" "/tools/1.2.3/ubuntu-amd64.tar.gz"));
    EvMarshal [record_of one_tarball tarball
                 "tools/1.2.3/ubuntu-amd64.tar.gz" 0 EmptyString]
      (marshal (healthy [tarball])
         [record_of one_tarball tarball
            "tools/1.2.3/ubuntu-amd64.tar.gz" 0 EmptyString]);
    EvStorageURL "tools/streams/v1/index.json"
      (inr "https://storage.example/tools/streams/v1/index.json");
    writing "https://storage.example/tools/streams/v1/index.json";
    put_event "tools/streams/v1/index.json"
      (bytes_of_string "com.ubuntu.juju:released:tools") None;
    EvStorageURL "tools/streams/v1/com.ubuntu.juju:released:tools.json"
      (inr "https://storage.example/tools/streams/v1/com.ubuntu.juju:released:tools.json");
    writing "https://storage.example/tools/streams/v1/com.ubuntu.juju:released:tools.json";
    put_event "tools/streams/v1/com.ubuntu.juju:released:tools.json"
      (bytes_of_string
         (line (record_of one_tarball tarball
                  "tools/1.2.3/ubuntu-amd64.tar.gz" 0 EmptyString))) None ].
Proof. vm_compute. reflexivity. Qed.

(** Three tarballs, the download of the second is refused: two are
    parsed and requested, the third is not looked at. *)
Lemma Run_processing_order_witness :
  exists k j,
    parses (events (Run second_refused (remote true) []))
      = List.map Tools_URL (List.firstn k [tarball; tarball_i386; tarball_arm]) /\
    gets (events (Run second_refused (remote true) []))
      = List.map Tools_URL (List.firstn j [tarball; tarball_i386; tarball_arm]) /\
    (if fetch (remote true) then j <= k <= j + 1 else j = 0)%nat /\
    (forall md res,
        In (EvMarshal md res) (events (Run second_refused (remote true) [])) ->
        k = List.length [tarball; tarball_i386; tarball_arm] /\
        (fetch (remote true) = true ->
         j = List.length [tarball; tarball_i386; tarball_arm])).
Proof.
  apply (Run_processing_order World second_refused (remote true) [] 1
           [tarball; tarball_i386; tarball_arm]).
  in_log.
Defined.

Example second_refused_order :
  parses (events (Run second_refused (remote true) []))
    = [Tools_URL tarball; Tools_URL tarball_i386] /\
  gets (events (Run second_refused (remote true) []))
    = [Tools_URL tarball; Tools_URL tarball_i386].
Proof. split; vm_compute; reflexivity. Qed.

(** A local-directory run, with another storage for the environment. *)
Lemma Run_local_ignores_environment_storage_witness :
  Run (with_storage one_tarball elsewhere) (local true) []
  = Run one_tarball (local true) [].
Proof.
  apply (Run_local_ignores_environment_storage World one_tarball (local true) []
           elsewhere).
  reflexivity.
Defined.

(** The storage refuses the products document. *)
Lemma Run_every_error_is_fatal_witness :
  outcome (Run refused_products (remote true) []) = Err "quota exceeded" /\
  exists pre post,
    events (Run refused_products (remote true) [])
      = pre ++ put_event "tools/streams/v1/com.ubuntu.juju:released:tools.json"
                         [] (Some "quota exceeded") :: post /\
    fault_free pre /\ Forall is_cleanup post /\ fault_free post /\
    (forall ev' n m,
        In ev' pre ->
        stage (put_event "tools/streams/v1/com.ubuntu.juju:released:tools.json"
                         [] (Some "quota exceeded")) = Some n ->
        stage ev' = Some m -> (m <= n)%nat).
Proof.
  apply (Run_every_error_is_fatal World refused_products (remote true) []
           (put_event "tools/streams/v1/com.ubuntu.juju:released:tools.json"
                      [] (Some "quota exceeded"))
           "quota exceeded").
  - in_log.
  - reflexivity.
Defined.

(** Discovery comes before marshalling. *)
Lemma Run_stages_in_order_witness :
  events (Run nothing_found (remote true) [])
  = [EvNewFromName "test" None; finding]
      ++ EvFindTools 1 (inr [])
      :: [] ++ EvMarshal [] (marshal (healthy []) [])
      :: List.skipn 4 (events (Run nothing_found (remote true) [])) /\
  (1 <= 3)%nat.
Proof.
  assert (Hlog : events (Run nothing_found (remote true) [])
                 = [EvNewFromName "test" None; finding]
                     ++ EvFindTools 1 (inr [])
                     :: [] ++ EvMarshal [] (marshal (healthy []) [])
                     :: List.skipn 4 (events (Run nothing_found (remote true) [])))
    by (vm_compute; reflexivity).
  split; [exact Hlog|].
  apply (Run_stages_in_order World nothing_found (remote true) []
           [EvNewFromName "test" None; finding] []
           (List.skipn 4 (events (Run nothing_found (remote true) [])))
           (EvFindTools 1 (inr []))
           (EvMarshal [] (marshal (healthy []) []))
           1 3).
  - exact Hlog.
  - reflexivity.
  - reflexivity.
Defined.

